(** * Quota overview: terminal report and dashboard

    A shallow embedding of [src/cli/quota.js]: the terminal report's
    accumulation of per-model averages, the dashboard utilities
    ([Utils.formatDuration], [Utils.maskEmail], [Utils.getModelFamily]),
    the aggregates computed by [Render.globalQuota], and the refresh
    controller ([refresh], [Render.loading], [Render.error], [Events]).

    Conventions of the embedding.
    - A JavaScript number holding a quota fraction is a rational [Q]; sums
      are folded in the order the source adds them, so no statement relies
      on re-association.  Millisecond timestamps and durations are [Z].
    - [null]/[undefined] is [None].
    - A JavaScript object used as a dictionary is an association list in
      enumeration order ([Object.keys] / [Object.entries]): for the keys
      met here (model ids, e-mail addresses) that is insertion order.
    - [Date.now()] is a parameter [now] of the function that reads it. *)

From Stdlib Require Import ZArith QArith Qround String Ascii List Lia Lqa Bool.
From stdpp Require Import base gmap strings pretty list.
Import ListNotations.

Local Open Scope string_scope.
Local Open Scope list_scope.
Local Open Scope Z_scope.

(** * Part I: the programs *)

(** ** Association lists in enumeration order *)

Module Dict.
Section Dict.
Context {V : Type}.

(** [obj[k]] *)
Fixpoint get (k : string) (d : list (string * V)) : option V :=
  match d with
  | [] => None
  | (k', v) :: d' => if String.eqb k k' then Some v else get k d'
  end.

(** [obj[k] = f(obj[k])] on a key that is present: the entry keeps its
    place in the enumeration. *)
Fixpoint modify (k : string) (f : V -> V) (d : list (string * V))
  : list (string * V) :=
  match d with
  | [] => []
  | (k', v) :: d' =>
      if String.eqb k k' then (k', f v) :: d' else (k', v) :: modify k f d'
  end.

(** [if (!obj[k]) obj[k] = v0]: a new key is enumerated last. *)
Definition ensure (k : string) (v0 : V) (d : list (string * V))
  : list (string * V) :=
  match get k d with
  | Some _ => d
  | None => d ++ [(k, v0)]
  end.

Definition keys (d : list (string * V)) : list string := map fst d.
End Dict.
End Dict.

(** ** Utils *)

Module Utils.

(** [Math.floor(a / b)] on integers, [a % b] on integers. *)
Definition floor_div (a b : Z) : Z := a / b.
Definition js_rem (a b : Z) : Z := Z.rem a b.

(** [Math.round(x)]: the nearest integer, halves towards +infinity. *)
Definition Math_round (x : Q) : Z := Qfloor (x + (1 # 2)).

(** Number-to-string conversion of an integer. *)
Definition show (n : Z) : string := pretty n.

Definition formatDuration (ms : Z) : string :=
  if ms <=? 0 then "now" else
  let seconds := floor_div ms 1000 in
  let minutes := floor_div seconds 60 in
  let hours := floor_div minutes 60 in
  let days := floor_div hours 24 in
  if days >? 0 then show days +:+ "d " +:+ show (js_rem hours 24) +:+ "h"
  else if hours >? 0 then show hours +:+ "h " +:+ show (js_rem minutes 60) +:+ "m"
  else if minutes >? 0 then show minutes +:+ "m " +:+ show (js_rem seconds 60) +:+ "s"
  else show seconds +:+ "s".

(** [s.split(sep)] for a one-character separator. *)
Fixpoint split (sep : ascii) (s : string) : list string :=
  match s with
  | EmptyString => [EmptyString]
  | String c s' =>
      if Ascii.eqb c sep then EmptyString :: split sep s'
      else match split sep s' with
           | [] => [String c EmptyString]
           | p :: ps => String c p :: ps
           end
  end.

(** [s.slice(0, n)] *)
Definition slice0 (n : nat) (s : string) : string := substring 0 n s.

Definition maskEmail (email : option string) : string :=
  match email with
  | None => ""
  | Some "" => ""
  | Some email =>
      match split "@" email with
      | [local; domain] =>
          let maskedLocal :=
            if (4 <? String.length local)%nat
            then slice0 4 local +:+ "***"
            else slice0 2 local +:+ "***" in
          maskedLocal +:+ "@" +:+ domain
      | _ => email
      end
  end.

(** [hay.indexOf(needle) !== -1] *)
Fixpoint includes (needle hay : string) : bool :=
  String.prefix needle hay ||
  match hay with
  | EmptyString => false
  | String _ hay' => includes needle hay'
  end.

Inductive Family := claude | gemini | unknown.

Definition getModelFamily (modelId : string) : Family :=
  if String.eqb modelId "" then unknown
  else if includes "claude" modelId then claude
  else if includes "gemini" modelId then gemini
  else unknown.

(** The string [getModelFamily] returns for a family. *)
Definition family_name (family : Family) : string :=
  match family with
  | claude => "claude"
  | gemini => "gemini"
  | unknown => "unknown"
  end.

Definition filterModels (models : list string) (filter : string) : list string :=
  if String.eqb filter "all" then models
  else List.filter
         (fun m => String.eqb (family_name (getModelFamily m)) filter)
         models.

Definition getQuotaLevel (fraction : option Q) : string :=
  match fraction with
  | None => "na"
  | Some fraction =>
      if Qle_bool (75 # 100) fraction then "high"
      else if Qle_bool (25 # 100) fraction then "medium"
      else if negb (Qle_bool fraction 0) then "low"
      else "exhausted"
  end.

(** [isoString] is a date string or [null]: [Some t] is a (truthy) string
    that [new Date(..)] reads as [t] milliseconds; [now] is [new Date()];
    [toLocaleDateString] is the method of that name. *)
Definition formatTimestamp (now : Z) (toLocaleDateString : Z -> string)
    (isoString : option Z) : string :=
  match isoString with
  | None => "never"
  | Some date =>
      let diffMs := now - date in
      if diffMs <? 60000 then "just now"
      else if diffMs <? 3600000 then show (floor_div diffMs 60000) +:+ "m ago"
      else if diffMs <? 86400000 then show (floor_div diffMs 3600000) +:+ "h ago"
      else toLocaleDateString date
  end.

End Utils.

(** ** Quota records shared by both programs *)

(** [{ remainingFraction, resetTime }].  [resetTime] is an ISO date string
    or [null]: [Some t] is a (truthy) string that [new Date(..).getTime()]
    reads as [t] milliseconds. *)
Record QuotaInfo := {
  remainingFraction : option Q;
  resetTime : option Z
}.

(** ** The terminal report ([main]) *)

Module Report.

Definition ESC : string := String "027"%char EmptyString.

(** [`\x1b[<colour>m<text>\x1b[0m`] *)
Definition paint (colour text : string) : string :=
  ESC +:+ "[" +:+ colour +:+ "m" +:+ text +:+ ESC +:+ "[0m".

Definition formatPercent (fraction : option Q) : string :=
  match fraction with
  | None => paint "90" "N/A"
  | Some fraction =>
      let pct := Utils.Math_round (fraction * 100) in
      if pct >=? 50 then paint "32" (Utils.show pct +:+ "%")
      else if pct >=? 20 then paint "33" (Utils.show pct +:+ "%")
      else paint "31" (Utils.show pct +:+ "%")
  end.

(** What [getToken] and [getModelQuotas] gave for one configured account:
    the quotas object, or the message of the error thrown. *)
Inductive Fetch :=
| Fetched (quotas : list (string * QuotaInfo))
| Threw (message : string).

Record Account := {
  email : string;
  fetch : Fetch
}.

(** [{ sum, count }] *)
Record Totals := {
  sum : Q;
  count : Z
}.

(** One turn of [for (const [modelId, info] of Object.entries(quotas))]. *)
Definition accumulate (modelTotals : list (string * Totals))
    (entry : string * QuotaInfo) : list (string * Totals) :=
  let '(modelId, info) := entry in
  match remainingFraction info with
  | Some fraction =>
      let modelTotals := Dict.ensure modelId {| sum := 0; count := 0 |} modelTotals in
      Dict.modify modelId
        (fun t => {| sum := sum t + fraction; count := count t + 1 |})
        modelTotals
  | None => modelTotals
  end.

(** One turn of [for (const account of accounts)], as far as [modelTotals]
    goes: a failed account leaves it alone. *)
Definition checkAccount (modelTotals : list (string * Totals))
    (account : Account) : list (string * Totals) :=
  match fetch account with
  | Fetched quotas => fold_left accumulate quotas modelTotals
  | Threw _ => modelTotals
  end.

Definition modelTotals (accounts : list Account) : list (string * Totals) :=
  fold_left checkAccount accounts [].

(** [modelAverages[modelId] = totals.count > 0 ? totals.sum / totals.count : null] *)
Definition average (totals : Totals) : option Q :=
  if count totals >? 0 then Some (sum totals / inject_Z (count totals))%Q
  else None.

Definition modelAverages (accounts : list Account)
  : list (string * option Q) :=
  map (fun '(modelId, totals) => (modelId, average totals))
      (modelTotals accounts).

(** [Object.values(modelAverages).filter(v => v !== null)] *)
Definition avgValues (modelAverages : list (string * option Q)) : list Q :=
  flat_map
    (fun kv => match snd kv with
               | Some v => [v]
               | None => []
               end)
    modelAverages.

Definition overallAverage (modelAverages : list (string * option Q)) : option Q :=
  let avgValues := avgValues modelAverages in
  if (0 <? length avgValues)%nat
  then Some (fold_left Qplus avgValues 0 / inject_Z (Z.of_nat (length avgValues)))%Q
  else None.

(** The text of the overall-average line, when the report prints one. *)
Definition overallLine (overallAverage : option Q) : option string :=
  match overallAverage with
  | None => None
  | Some overallAverage =>
      let overallPct := Utils.Math_round (overallAverage * 100) in
      let color := ESC +:+ "[32m" in
      let color := if overallPct <? 50 then ESC +:+ "[33m" else color in
      let color := if overallPct <? 20 then ESC +:+ "[31m" else color in
      Some ("  " +:+ ESC +:+ "[1mOverall Average:" +:+ ESC +:+ "[0m "
            +:+ color +:+ Utils.show overallPct +:+ "%" +:+ ESC +:+ "[0m"
            +:+ String "010"%char EmptyString)
  end.

End Report.

(** ** The dashboard's global quota panel ([Render.globalQuota]) *)

Module Render.

(** An entry of [accountLimits.accounts]. [limits] may be missing, and a
    model of [limits] may hold [null]. *)
Record Account := {
  email : string;
  status : string;
  limits : option (list (string * option QuotaInfo))
}.

(** [{ sum, count, soonestReset }] *)
Record PerAccount := {
  sum : Q;
  count : Z;
  soonestReset : option Z
}.

(** [{ time, model }] *)
Record Reset := {
  time : Z;
  model : string
}.

(** Truthiness of a number-or-null. *)
Definition truthy (t : option Z) : bool :=
  match t with
  | Some t => negb (t =? 0)
  | None => false
  end.

(** The body shared by the [claude] and the [gemini] branch: the source has
    it twice, once per dictionary. *)
Definition track (perAccount : list (string * PerAccount)) (email : string)
    (fraction : Q) (resetTime : option Z) : list (string * PerAccount) :=
  let perAccount :=
    Dict.ensure email {| sum := 0; count := 0; soonestReset := None |} perAccount in
  let perAccount :=
    Dict.modify email
      (fun a => {| sum := sum a + fraction; count := count a + 1;
                   soonestReset := soonestReset a |})
      perAccount in
  match resetTime with
  | Some rt =>
      Dict.modify email
        (fun a =>
           if negb (truthy (soonestReset a))
              || match soonestReset a with Some s => rt <? s | None => false end
           then {| sum := sum a; count := count a; soonestReset := Some rt |}
           else a)
        perAccount
  | None => perAccount
  end.

(** The three accumulators of the scan. *)
Record Scan := {
  claudePerAccount : list (string * PerAccount);
  geminiPerAccount : list (string * PerAccount);
  allResets : list Reset
}.

(** The callback of [Object.keys(acc.limits).forEach]. *)
Definition scanModel (email : string) (s : Scan)
    (entry : string * option QuotaInfo) : Scan :=
  let '(modelId, limit) := entry in
  match limit with
  | None => s
  | Some limit =>
      let fraction :=
        match remainingFraction limit with
        | Some fraction => fraction
        | None => 0%Q
        end in
      let resetTime := resetTime limit in
      let s :=
        match Utils.getModelFamily modelId with
        | Utils.claude =>
            {| claudePerAccount := track (claudePerAccount s) email fraction resetTime;
               geminiPerAccount := geminiPerAccount s;
               allResets := allResets s |}
        | Utils.gemini =>
            {| claudePerAccount := claudePerAccount s;
               geminiPerAccount := track (geminiPerAccount s) email fraction resetTime;
               allResets := allResets s |}
        | Utils.unknown => s
        end in
      match resetTime with
      | Some rt =>
          if Qeq_bool fraction 0
          then {| claudePerAccount := claudePerAccount s;
                  geminiPerAccount := geminiPerAccount s;
                  allResets := allResets s ++ [{| time := rt; model := modelId |}] |}
          else s
      | None => s
      end
  end.

(** [acc.status !== 'ok' && acc.status !== 'rate-limited'] *)
Definition unusable (acc : Account) : bool :=
  negb (String.eqb (status acc) "ok") && negb (String.eqb (status acc) "rate-limited").

(** The callback of [accountLimits.accounts.forEach]. *)
Definition scanAccount (s : Scan) (acc : Account) : Scan :=
  if unusable acc then s
  else match limits acc with
       | None => s
       | Some limits => fold_left (scanModel (email acc)) limits s
       end.

Definition scan (accounts : list Account) : Scan :=
  fold_left scanAccount accounts
    {| claudePerAccount := []; geminiPerAccount := []; allResets := [] |}.

(** The averaging block, which the source has once per family: the mean of
    the per-account means and the soonest of the per-account resets. *)
Definition familyStep (perAccount : list (string * PerAccount))
    (totals : Q * option Z) (email : string) : Q * option Z :=
  let '(total, soonest) := totals in
  match Dict.get email perAccount with
  | None => totals
  | Some acc =>
      let accAvg := (sum acc / inject_Z (count acc))%Q in
      ((total + accAvg)%Q,
       if truthy (soonestReset acc)
          && (negb (truthy soonest)
              || match soonestReset acc, soonest with
                 | Some a, Some s => a <? s
                 | _, _ => false
                 end)
       then soonestReset acc
       else soonest)
  end.

Definition familyAverage (perAccount : list (string * PerAccount))
  : Q * option Z :=
  let accounts := Dict.keys perAccount in
  if (0 <? length accounts)%nat
  then
    let '(total, soonest) := fold_left (familyStep perAccount) accounts (0%Q, None) in
    ((total / inject_Z (Z.of_nat (length accounts)))%Q, soonest)
  else (0%Q, None).

(** [allResets.forEach]: the soonest future reset among the exhausted
    quotas. *)
Definition pickReset (now : Z) (nextReset : option Reset) (r : Reset)
  : option Reset :=
  if (time r >? now)
     && match nextReset with
        | None => true
        | Some n => time r <? time n
        end
  then Some r
  else nextReset.

(** What [Render.globalQuota] computes before it writes to the page. *)
Record GlobalQuota := {
  claudeAccounts : list string;
  claudeAvgFraction : Q;
  claudeSoonestReset : option Z;
  geminiAccounts : list string;
  geminiAvgFraction : Q;
  geminiSoonestReset : option Z;
  nextReset : option Reset
}.

Definition aggregates (now : Z) (accounts : list Account) : GlobalQuota :=
  let s := scan accounts in
  let c := familyAverage (claudePerAccount s) in
  let g := familyAverage (geminiPerAccount s) in
  {| claudeAccounts := Dict.keys (claudePerAccount s);
     claudeAvgFraction := fst c;
     claudeSoonestReset := snd c;
     geminiAccounts := Dict.keys (geminiPerAccount s);
     geminiAvgFraction := fst g;
     geminiSoonestReset := snd g;
     nextReset := fold_left (pickReset now) (allResets s) None |}.

(** [accountLimits] is [null] before the first refresh, and its [accounts]
    may be missing: the panel then shows dashes ([None]). *)
Definition globalQuota (now : Z) (accountLimits : option (option (list Account)))
  : option GlobalQuota :=
  match accountLimits with
  | Some (Some accounts) => Some (aggregates now accounts)
  | _ => None
  end.

(** The percentage [Render.globalQuota] writes for a family: the text of
    the gauge and the width of its fill. *)
Definition familyPercent (accounts : list string) (avgFraction : Q)
  : string * string :=
  if (0 <? length accounts)%nat
  then let percent := Utils.Math_round (avgFraction * 100) in
       (Utils.show percent +:+ "%", Utils.show percent +:+ "%")
  else ("N/A", "0%").


(** The search that [Render.accounts] and [Render.matrix] apply to their
    accounts: [toLowerCase] is the string method, [email] reads [acc.email]. *)
Definition searchFilter {A : Type} (toLowerCase : string -> string)
    (email : A -> string) (searchQuery : string) (accounts : list A) : list A :=
  if String.eqb searchQuery "" then accounts
  else
    let query := toLowerCase searchQuery in
    List.filter (fun acc => Utils.includes query (toLowerCase (email acc))) accounts.

(** A cell of the matrix: its class, its text, and the text of the countdown
    it holds, if it holds one. *)
Record Cell := {
  className : string;
  text : string;
  resetSpan : option string
}.

(** The body of [filteredModels.forEach] in [Render.matrix]. *)
Definition matrixCell (now : Z) (acc : Account) (modelId : string) : Cell :=
  if unusable acc
  then {| className := "quota-cell" +:+ " na";
          text := "[" +:+ status acc +:+ "]";
          resetSpan := None |}
  else
    let limit :=
      match limits acc with
      | Some limits =>
          match Dict.get modelId limits with
          | Some (Some limit) => Some limit
          | _ => None
          end
      | None => None
      end in
    match limit with
    | None => {| className := "quota-cell" +:+ " na"; text := "-"; resetSpan := None |}
    | Some limit =>
        let fraction := remainingFraction limit in
        let level := Utils.getQuotaLevel fraction in
        let resetMs :=
          match resetTime limit with
          | Some t => t - now
          | None => 0
          end in
        match fraction with
        | Some fraction =>
            let percent := Utils.Math_round (fraction * 100) in
            {| className := "quota-cell" +:+ " " +:+ level;
               text := Utils.show percent +:+ "%";
               resetSpan :=
                 if (resetMs >? 0) && (percent =? 0)
                 then Some (Utils.formatDuration resetMs)
                 else None |}
        | None =>
            {| className := "quota-cell" +:+ " " +:+ level;
               text := "N/A";
               resetSpan := None |}
        end
    end.

End Render.

(** ** The refresh controller ([state], [refresh], [Events]) *)

Module Controller.

(** The body of [/health], as far as the controller itself reads it. *)
Record Health := {
  latencyMs : Z;
  total : Z;
  available : Z;
  rateLimited : Z;
  invalid : Z
}.

(** The body of [/account-limits?format=json]. *)
Record AccountLimits := {
  models : list string;
  accounts : option (list Render.Account)
}.

(** The [state] object. Timers are the ids [setInterval] and [setTimeout]
    return. *)
Record State := {
  health : option Health;
  accountLimits : option AccountLimits;
  lastUpdated : option Z;
  autoRefresh : bool;
  refreshInterval : Z;
  refreshTimer : option Z;
  countdownTimer : option Z;
  searchTimeout : option Z;
  filter : string;
  searchQuery : string;
  expandedAccounts : gset string;
  isLoading : bool
}.

(** The page elements that [refresh] and its indicators write. *)
Record Page := {
  serverStatusText : string;
  serverStatusClass : string;
  errorMessage : string;
  errorBannerHidden : bool;
  manualRefreshLoading : bool;
  manualRefreshDisabled : bool
}.

(** The application between two turns of the event loop: [pending] counts
    the calls of [refresh] suspended at [await Promise.all], [fetchPairs]
    the pairs of requests issued so far, [timers] the timer ids handed out. *)
Record World := {
  state : State;
  page : Page;
  pending : nat;
  fetchPairs : nat;
  timers : Z
}.

Definition with_state (f : State -> State) (w : World) : World :=
  {| state := f (state w); page := page w; pending := pending w;
     fetchPairs := fetchPairs w; timers := timers w |}.

Definition with_page (f : Page -> Page) (w : World) : World :=
  {| state := state w; page := f (page w); pending := pending w;
     fetchPairs := fetchPairs w; timers := timers w |}.

Definition set_isLoading (b : bool) (s : State) : State :=
  {| health := health s; accountLimits := accountLimits s;
     lastUpdated := lastUpdated s; autoRefresh := autoRefresh s;
     refreshInterval := refreshInterval s; refreshTimer := refreshTimer s;
     countdownTimer := countdownTimer s; searchTimeout := searchTimeout s;
     filter := filter s; searchQuery := searchQuery s;
     expandedAccounts := expandedAccounts s; isLoading := b |}.

(** [state.health = health; state.accountLimits = accountLimits;
     state.lastUpdated = Date.now()] *)
Definition set_snapshot (h : Health) (l : AccountLimits) (now : Z) (s : State)
  : State :=
  {| health := Some h; accountLimits := Some l; lastUpdated := Some now;
     autoRefresh := autoRefresh s;
     refreshInterval := refreshInterval s; refreshTimer := refreshTimer s;
     countdownTimer := countdownTimer s; searchTimeout := searchTimeout s;
     filter := filter s; searchQuery := searchQuery s;
     expandedAccounts := expandedAccounts s; isLoading := isLoading s |}.

Definition set_filter (f : string) (s : State) : State :=
  {| health := health s; accountLimits := accountLimits s;
     lastUpdated := lastUpdated s; autoRefresh := autoRefresh s;
     refreshInterval := refreshInterval s; refreshTimer := refreshTimer s;
     countdownTimer := countdownTimer s; searchTimeout := searchTimeout s;
     filter := f; searchQuery := searchQuery s;
     expandedAccounts := expandedAccounts s; isLoading := isLoading s |}.

Definition set_search (q : string) (t : Z) (s : State) : State :=
  {| health := health s; accountLimits := accountLimits s;
     lastUpdated := lastUpdated s; autoRefresh := autoRefresh s;
     refreshInterval := refreshInterval s; refreshTimer := refreshTimer s;
     countdownTimer := countdownTimer s; searchTimeout := Some t;
     filter := filter s; searchQuery := q;
     expandedAccounts := expandedAccounts s; isLoading := isLoading s |}.

Definition set_expandedAccounts (e : gset string) (s : State) : State :=
  {| health := health s; accountLimits := accountLimits s;
     lastUpdated := lastUpdated s; autoRefresh := autoRefresh s;
     refreshInterval := refreshInterval s; refreshTimer := refreshTimer s;
     countdownTimer := countdownTimer s; searchTimeout := searchTimeout s;
     filter := filter s; searchQuery := searchQuery s;
     expandedAccounts := e; isLoading := isLoading s |}.

Definition set_auto (auto : bool) (interval : Z) (timer countdown : option Z)
    (s : State) : State :=
  {| health := health s; accountLimits := accountLimits s;
     lastUpdated := lastUpdated s; autoRefresh := auto;
     refreshInterval := interval; refreshTimer := timer;
     countdownTimer := countdown; searchTimeout := searchTimeout s;
     filter := filter s; searchQuery := searchQuery s;
     expandedAccounts := expandedAccounts s; isLoading := isLoading s |}.

(** [Render.loading] *)
Definition Render_loading (isLoading : bool) (w : World) : World :=
  let w := with_state (set_isLoading isLoading) w in
  with_page
    (fun p =>
       if isLoading
       then {| serverStatusText := "Loading...";
               serverStatusClass := "status-badge loading";
               errorMessage := errorMessage p;
               errorBannerHidden := errorBannerHidden p;
               manualRefreshLoading := true;
               manualRefreshDisabled := true |}
       else {| serverStatusText := serverStatusText p;
               serverStatusClass := serverStatusClass p;
               errorMessage := errorMessage p;
               errorBannerHidden := errorBannerHidden p;
               manualRefreshLoading := false;
               manualRefreshDisabled := false |})
    w.

(** [Render.error]: an empty message is falsy, like [null]. *)
Definition Render_error (message : option string) (w : World) : World :=
  with_page
    (fun p =>
       match message with
       | Some (String _ _ as message) =>
           {| serverStatusText := serverStatusText p;
              serverStatusClass := serverStatusClass p;
              errorMessage := message;
              errorBannerHidden := false;
              manualRefreshLoading := manualRefreshLoading p;
              manualRefreshDisabled := manualRefreshDisabled p |}
       | _ =>
           {| serverStatusText := serverStatusText p;
              serverStatusClass := serverStatusClass p;
              errorMessage := errorMessage p;
              errorBannerHidden := true;
              manualRefreshLoading := manualRefreshLoading p;
              manualRefreshDisabled := manualRefreshDisabled p |}
       end)
    w.

(** [Render.serverStatus] *)
Definition Render_serverStatus (isOk : bool) (latencyMs : Z) (w : World) : World :=
  with_page
    (fun p =>
       {| serverStatusText :=
            if isOk then "OK (" +:+ Utils.show latencyMs +:+ "ms)" else "Error";
          serverStatusClass :=
            if isOk then "status-badge ok" else "status-badge error";
          errorMessage := errorMessage p;
          errorBannerHidden := errorBannerHidden p;
          manualRefreshLoading := manualRefreshLoading p;
          manualRefreshDisabled := manualRefreshDisabled p |})
    w.

(** How a promise settles. *)
Inductive Settled (A : Type) :=
| Resolved (value : A)
| Rejected (message : string).
Arguments Resolved {A} value.
Arguments Rejected {A} message.

(** [Promise.all] of the two requests: it rejects with the rejection that
    comes first in time ([healthFirst] says which request settles first). *)
Definition Promise_all (h : Settled Health) (l : Settled AccountLimits)
    (healthFirst : bool) : Settled (Health * AccountLimits) :=
  match h, l with
  | Resolved hv, Resolved lv => Resolved (hv, lv)
  | Rejected m, Resolved _ => Rejected m
  | Resolved _, Rejected m => Rejected m
  | Rejected mh, Rejected ml => Rejected (if healthFirst then mh else ml)
  end.

(** [refresh] up to its [await]: the guard, the two indicators, and the two
    requests sent. *)
Definition refresh_begin (w : World) : World :=
  if isLoading (state w) then w
  else
    let w := Render_loading true w in
    let w := Render_error None w in
    {| state := state w; page := page w; pending := S (pending w);
       fetchPairs := S (fetchPairs w); timers := timers w |}.

(** The [catch] block. *)
Definition refresh_catch (message : string) (w : World) : World :=
  Render_error (Some ("Failed to connect: " +:+ message))
    (Render_serverStatus false 0 w).

(** [refresh] from its [await] on. [now] is [Date.now()]; [renderThrows] is
    the message of the exception a renderer throws on a body of the wrong
    shape, if one does. *)
Definition refresh_resume (now : Z) (h : Settled Health)
    (l : Settled AccountLimits) (healthFirst : bool)
    (renderThrows : option string) (w : World) : World :=
  let w :=
    match Promise_all h l healthFirst with
    | Resolved (health, accountLimits) =>
        let w := with_state (set_snapshot health accountLimits now) w in
        let w := Render_serverStatus true (latencyMs health) w in
        match renderThrows with
        | None => w
        | Some message => refresh_catch message w
        end
    | Rejected message => refresh_catch message w
    end in
  let w := Render_loading false w in
  {| state := state w; page := page w; pending := Nat.pred (pending w);
     fetchPairs := fetchPairs w; timers := timers w |}.

(** [stopAutoRefresh], [startAutoRefresh] *)
Definition stopAutoRefresh (w : World) : World :=
  with_state
    (fun s => set_auto (autoRefresh s) (refreshInterval s) None (countdownTimer s) s)
    w.

Definition startAutoRefresh (w : World) : World :=
  let w := stopAutoRefresh w in
  let id := timers w + 1 in
  let w := with_state
    (fun s => set_auto (autoRefresh s) (refreshInterval s) (Some id) (countdownTimer s) s)
    w in
  {| state := state w; page := page w; pending := pending w;
     fetchPairs := fetchPairs w; timers := id |}.

Definition startCountdownUpdater (w : World) : World :=
  let id := timers w + 1 in
  let w := with_state
    (fun s => set_auto (autoRefresh s) (refreshInterval s) (refreshTimer s) (Some id) s)
    w in
  {| state := state w; page := page w; pending := pending w;
     fetchPairs := fetchPairs w; timers := id |}.

(** What the event loop delivers. *)
Inductive Event :=
| ManualRefresh
| TimerRefresh
| RetryAfterError
| RequestsSettled (now : Z) (h : Settled Health) (l : Settled AccountLimits)
    (healthFirst : bool) (renderThrows : option string)
| FilterByModel (filter : string)
| SearchAccounts (trimmed : string)
| ToggleAccount (email : string)
| ToggleAutoRefresh (checked : bool)
| ChangeRefreshInterval (ms : Z).

Definition toggleAccount (email : string) (w : World) : World :=
  with_state
    (fun s =>
       if bool_decide (email ∈ expandedAccounts s)
       then set_expandedAccounts (expandedAccounts s ∖ {[email]}) s
       else set_expandedAccounts (expandedAccounts s ∪ {[email]}) s)
    w.

Definition searchAccounts (trimmed : string) (w : World) : World :=
  let id := timers w + 1 in
  let w := with_state (set_search trimmed id) w in
  {| state := state w; page := page w; pending := pending w;
     fetchPairs := fetchPairs w; timers := id |}.

Definition toggleAutoRefresh (checked : bool) (w : World) : World :=
  let w := with_state
    (fun s => set_auto checked (refreshInterval s) (refreshTimer s) (countdownTimer s) s)
    w in
  if checked then startAutoRefresh w else stopAutoRefresh w.

Definition changeRefreshInterval (ms : Z) (w : World) : World :=
  let w := with_state
    (fun s => set_auto (autoRefresh s) ms (refreshTimer s) (countdownTimer s) s)
    w in
  if autoRefresh (state w) then startAutoRefresh (stopAutoRefresh w) else w.

Definition step (w : World) (e : Event) : World :=
  match e with
  | ManualRefresh => refresh_begin w
  | TimerRefresh =>
      match refreshTimer (state w) with
      | Some _ => refresh_begin w
      | None => w
      end
  | RetryAfterError => refresh_begin (Render_error None w)
  | RequestsSettled now h l healthFirst renderThrows =>
      match pending w with
      | O => w
      | S _ => refresh_resume now h l healthFirst renderThrows w
      end
  | FilterByModel f => with_state (set_filter f) w
  | SearchAccounts trimmed => searchAccounts trimmed w
  | ToggleAccount email => toggleAccount email w
  | ToggleAutoRefresh checked => toggleAutoRefresh checked w
  | ChangeRefreshInterval ms => changeRefreshInterval ms w
  end.

Definition run (events : list Event) (w : World) : World :=
  fold_left step events w.

(** The [state] literal and the page as it is served. *)
Definition state0 : State :=
  {| health := None; accountLimits := None; lastUpdated := None;
     autoRefresh := true; refreshInterval := 30000; refreshTimer := None;
     countdownTimer := None; searchTimeout := None; filter := "all";
     searchQuery := ""; expandedAccounts := ∅; isLoading := false |}.

Definition page0 : Page :=
  {| serverStatusText := ""; serverStatusClass := "";
     errorMessage := ""; errorBannerHidden := true;
     manualRefreshLoading := false; manualRefreshDisabled := false |}.

Definition world0 : World :=
  {| state := state0; page := page0; pending := 0; fetchPairs := 0; timers := 0 |}.

(** [init] *)
Definition init (w : World) : World :=
  let w := refresh_begin w in
  let w := if autoRefresh (state w) then startAutoRefresh w else w in
  startCountdownUpdater w.

End Controller.

(** * Part II: the vocabulary of the statements *)

(** ** Durations *)

(** The breakdown by units: thresholds on the millisecond value itself and
    one division per unit. *)
Definition duration_by_units (ms : Z) : string :=
  if ms <=? 0 then "now"
  else if 86400000 <=? ms
       then pretty (ms / 86400000) +:+ "d " +:+ pretty ((ms / 3600000) mod 24) +:+ "h"
  else if 3600000 <=? ms
       then pretty (ms / 3600000) +:+ "h " +:+ pretty ((ms / 60000) mod 60) +:+ "m"
  else if 60000 <=? ms
       then pretty (ms / 60000) +:+ "m " +:+ pretty ((ms / 1000) mod 60) +:+ "s"
  else pretty (ms / 1000) +:+ "s".

(** ** Means *)

(** The arithmetic mean of a non-empty list, summed from the left. *)
Definition mean (values : list Q) : Q :=
  (fold_left Qplus values 0 / inject_Z (Z.of_nat (length values)))%Q.

(** ** Model averages of the terminal report *)

(** The non-null fractions one quotas object holds for a model. *)
Definition offers (modelId : string) (quotas : list (string * QuotaInfo))
  : list Q :=
  flat_map
    (fun entry =>
       if String.eqb (fst entry) modelId
       then match remainingFraction (snd entry) with
            | Some fraction => [fraction]
            | None => []
            end
       else [])
    quotas.

(** The quotas object of an account, empty when its fetch threw. *)
Definition quotas_of (account : Report.Account) : list (string * QuotaInfo) :=
  match Report.fetch account with
  | Report.Fetched quotas => quotas
  | Report.Threw _ => []
  end.

(** The non-null fractions of a model across the accounts, in the order of
    the accounts. *)
Definition contributions (modelId : string) (accounts : list Report.Account)
  : list Q :=
  flat_map (fun account => offers modelId (quotas_of account)) accounts.

(** A model id appears in some account. *)
Definition appears (modelId : string) (accounts : list Report.Account) : bool :=
  existsb
    (fun account =>
       existsb (fun entry => String.eqb (fst entry) modelId) (quotas_of account))
    accounts.

(** The value the specification gives a model that appears: the mean of its
    non-null fractions, or null when it has none. *)
Definition average_or_null (values : list Q) : option Q :=
  match values with
  | [] => None
  | _ => Some (mean values)
  end.

(** What one more batch of non-null fractions does to a model's totals. *)
Definition tally (totals : option Report.Totals) (values : list Q)
  : option Report.Totals :=
  fold_left
    (fun o fraction =>
       match o with
       | Some t => Some {| Report.sum := Report.sum t + fraction;
                           Report.count := Report.count t + 1 |}
       | None => Some {| Report.sum := 0 + fraction; Report.count := 0 + 1 |}
       end)
    values totals.

(** A totals entry that may be divided by. *)
Definition counted (kv : string * Report.Totals) : Prop :=
  0 < Report.count (snd kv).

(** ** Severity tiers of the terminal report *)

Inductive Tier := tier_na | tier_high | tier_mid | tier_low.

(** The tier by thresholds on the fraction itself, as the specification
    has it. *)
Definition tier_by_fraction (fraction : option Q) : Tier :=
  match fraction with
  | None => tier_na
  | Some f =>
      if Qle_bool (50 # 100) f then tier_high
      else if Qle_bool (20 # 100) f then tier_mid
      else tier_low
  end.

(** The tier by thresholds on the percentage rounded to the nearest integer:
    a rounded percentage of at least 50 is a fraction of at least 0.495, one
    of at least 20 is a fraction of at least 0.195. *)
Definition tier_by_rounded_percent (fraction : option Q) : Tier :=
  match fraction with
  | None => tier_na
  | Some f =>
      if Qle_bool (495 # 1000) f then tier_high
      else if Qle_bool (195 # 1000) f then tier_mid
      else tier_low
  end.

(** The tier a report string shows: grey is n/a, green high, yellow mid,
    red low. *)
Definition shown_tier (s : string) : option Tier :=
  if String.prefix (Report.ESC +:+ "[90m") s then Some tier_na
  else if String.prefix (Report.ESC +:+ "[32m") s then Some tier_high
  else if String.prefix (Report.ESC +:+ "[33m") s then Some tier_mid
  else if String.prefix (Report.ESC +:+ "[31m") s then Some tier_low
  else None.

(** ** Masked e-mail addresses *)

Fixpoint occurrences (c : ascii) (s : string) : nat :=
  match s with
  | EmptyString => 0%nat
  | String c' s' => ((if Ascii.eqb c' c then 1 else 0) + occurrences c s')%nat
  end.

(** What the dashboard shows for an e-mail address. *)
Inductive masks : option string -> string -> Prop :=
| masks_absent : masks None ""
| masks_empty : masks (Some "") ""
| masks_malformed email :
    email <> "" -> occurrences "@" email <> 1%nat ->
    masks (Some email) email
| masks_long local domain :
    occurrences "@" local = 0%nat -> occurrences "@" domain = 0%nat ->
    (4 < String.length local)%nat ->
    masks (Some (local +:+ "@" +:+ domain))
          (substring 0 4 local +:+ "***" +:+ "@" +:+ domain)
| masks_short local domain :
    occurrences "@" local = 0%nat -> occurrences "@" domain = 0%nat ->
    (String.length local <= 4)%nat ->
    masks (Some (local +:+ "@" +:+ domain))
          (substring 0 2 local +:+ "***" +:+ "@" +:+ domain).

(** ** Aggregates of the global quota panel *)

(** The quotas an account offers: the models of its limits mapping that
    hold a record. *)
Definition quota_entries (acc : Render.Account) : list (string * QuotaInfo) :=
  match Render.limits acc with
  | Some limits =>
      flat_map
        (fun entry =>
           match snd entry with
           | Some limit => [(fst entry, limit)]
           | None => []
           end)
        limits
  | None => []
  end.

(** An account that the panel leaves out: its status is neither 'ok' nor
    'rate-limited', or it has no limits mapping. *)
Definition left_out (acc : Render.Account) : Prop :=
  (Render.status acc <> "ok" /\ Render.status acc <> "rate-limited")
  \/ Render.limits acc = None.

(** A candidate for the next global reset as the specification has it: reset
    time set and strictly later than now, fraction exactly 0. *)
Definition candidate_as_specified (now : Z) (q : QuotaInfo) : bool :=
  match resetTime q, remainingFraction q with
  | Some t, Some f => (t >? now) && Qeq_bool f 0
  | _, _ => false
  end.

Definition candidates_as_specified (now : Z) (accounts : list Render.Account)
  : list Render.Reset :=
  flat_map
    (fun acc =>
       flat_map
         (fun entry =>
            if candidate_as_specified now (snd entry)
            then match resetTime (snd entry) with
                 | Some t => [{| Render.time := t; Render.model := fst entry |}]
                 | None => []
                 end
            else [])
         (quota_entries acc))
    accounts.

(** A candidate as the panel has it: reset time set and strictly later than
    now, fraction 0 or null. *)
Definition candidate (now : Z) (q : QuotaInfo) : bool :=
  match resetTime q with
  | Some t =>
      (t >? now)
      && match remainingFraction q with
         | Some f => Qeq_bool f 0
         | None => true
         end
  | None => false
  end.

(** The candidates of the accounts that are 'ok' or 'rate-limited', accounts
    then models in the order of the snapshot. *)
Definition candidates (now : Z) (accounts : list Render.Account)
  : list Render.Reset :=
  flat_map
    (fun acc =>
       if Render.unusable acc then []
       else
         flat_map
           (fun entry =>
              if candidate now (snd entry)
              then match resetTime (snd entry) with
                   | Some t => [{| Render.time := t; Render.model := fst entry |}]
                   | None => []
                   end
              else [])
           (quota_entries acc))
    accounts.

(** [r] is the choice among the candidates [cs]: none when there is no
    candidate; otherwise a candidate with the smallest reset time, and the
    first of those in the order of [cs]. *)
Definition soonest_first (cs : list Render.Reset) (r : option Render.Reset) : Prop :=
  match r with
  | None => cs = []
  | Some r =>
      exists earlier later,
        cs = earlier ++ r :: later /\
        Forall (fun c => Render.time r < Render.time c) earlier /\
        Forall (fun c => Render.time r <= Render.time c) later
  end.

(** The exhausted quotas with a reset time, past or future: what the scan
    pushes on [allResets]. *)
Definition exhausted_entry (entry : string * QuotaInfo) : list Render.Reset :=
  match resetTime (snd entry) with
  | Some t =>
      if match remainingFraction (snd entry) with
         | Some f => Qeq_bool f 0
         | None => true
         end
      then [{| Render.time := t; Render.model := fst entry |}]
      else []
  | None => []
  end.

Definition exhausted (acc : Render.Account) : list Render.Reset :=
  if Render.unusable acc then []
  else flat_map exhausted_entry (quota_entries acc).

(** A reset that lies ahead. *)
Definition future (now : Z) (r : Render.Reset) : bool := Render.time r >? now.

(** ** Family gauges *)

Definition family_eqb (a b : Utils.Family) : bool :=
  match a, b with
  | Utils.claude, Utils.claude => true
  | Utils.gemini, Utils.gemini => true
  | Utils.unknown, Utils.unknown => true
  | _, _ => false
  end.

(** The value a quota counts for in a gauge: a null fraction counts as 0. *)
Definition null_as_zero (q : QuotaInfo) : Q :=
  match remainingFraction q with
  | Some fraction => fraction
  | None => 0%Q
  end.

(** The per-model values of the family's models of one quotas list. *)
Definition values_in (family : Utils.Family) (entries : list (string * QuotaInfo))
  : list Q :=
  flat_map
    (fun entry =>
       if family_eqb (Utils.getModelFamily (fst entry)) family
       then [null_as_zero (snd entry)]
       else [])
    entries.

(** The per-model values of the family's models of one account; an account
    that is left out has none. *)
Definition family_values (family : Utils.Family) (acc : Render.Account) : list Q :=
  if Render.unusable acc then [] else values_in family (quota_entries acc).

(** The accounts that have a model of the family. *)
Definition contributing (family : Utils.Family) (accounts : list Render.Account)
  : list Render.Account :=
  List.filter
    (fun acc =>
       match family_values family acc with
       | [] => false
       | _ => true
       end)
    accounts.

(** The scalar of one account: the mean of its per-model values. *)
Definition account_scalar (family : Utils.Family) (acc : Render.Account) : Q :=
  mean (family_values family acc).

(** The gauge: the unweighted mean of the scalars of the contributing
    accounts (0, shown as N/A, when no account contributes). *)
Definition family_gauge (family : Utils.Family) (accounts : list Render.Account) : Q :=
  match contributing family accounts with
  | [] => 0%Q
  | cs => mean (map (account_scalar family) cs)
  end.

(** The dictionary the scan keeps for a family. *)
Definition perAccount (family : Utils.Family) (s : Render.Scan)
  : list (string * Render.PerAccount) :=
  match family with
  | Utils.claude => Render.claudePerAccount s
  | Utils.gemini => Render.geminiPerAccount s
  | Utils.unknown => []
  end.

(** The entry of the account being scanned, if it has one yet. *)
Definition slot (email : string) (o : option Render.PerAccount)
  : list (string * Render.PerAccount) :=
  match o with
  | Some a => [(email, a)]
  | None => []
  end.

(** What [Render.track] makes of that entry. *)
Definition slot_track (o : option Render.PerAccount) (fraction : Q)
    (resetTime : option Z) : Render.PerAccount :=
  let a := match o with
           | Some a => a
           | None => {| Render.sum := 0; Render.count := 0;
                        Render.soonestReset := None |}
           end in
  let a := {| Render.sum := Render.sum a + fraction;
              Render.count := Render.count a + 1;
              Render.soonestReset := Render.soonestReset a |} in
  match resetTime with
  | Some rt =>
      if negb (Render.truthy (Render.soonestReset a))
         || match Render.soonestReset a with Some s => rt <? s | None => false end
      then {| Render.sum := Render.sum a; Render.count := Render.count a;
              Render.soonestReset := Some rt |}
      else a
  | None => a
  end.

(** Sum and count of an entry that may not exist yet. *)
Definition slot_sum (o : option Render.PerAccount) : Q :=
  match o with Some a => Render.sum a | None => 0%Q end.

Definition slot_count (o : option Render.PerAccount) : Z :=
  match o with Some a => Render.count a | None => 0 end.

(** An entry of the dictionary holds the sum and the count of the per-model
    values of its account. *)
Definition summarises (family : Utils.Family) (acc : Render.Account)
    (kv : string * Render.PerAccount) : Prop :=
  fst kv = Render.email acc /\
  Render.sum (snd kv) = fold_left Qplus (family_values family acc) 0%Q /\
  Render.count (snd kv) = Z.of_nat (length (family_values family acc)).

(** ** The refresh controller *)

(** The snapshot fields of the state. *)
Definition snapshot (s : Controller.State)
  : option Controller.Health * option Controller.AccountLimits * option Z :=
  (Controller.health s, Controller.accountLimits s, Controller.lastUpdated s).

(** The application as [init] leaves it. *)
Definition booted : Controller.World := Controller.init Controller.world0.

(** An event that calls [refresh]. *)
Definition is_trigger (e : Controller.Event) : bool :=
  match e with
  | Controller.ManualRefresh
  | Controller.TimerRefresh
  | Controller.RetryAfterError => true
  | _ => false
  end.

(** An event that resumes a suspended [refresh]. *)
Definition is_settlement (e : Controller.Event) : bool :=
  match e with
  | Controller.RequestsSettled _ _ _ _ _ => true
  | _ => false
  end.

(** A request that failed. *)
Definition rejected {A : Type} (r : Controller.Settled A) : Prop :=
  match r with
  | Controller.Rejected _ => True
  | Controller.Resolved _ => False
  end.

(** What holds between two turns of the event loop: at most one call of
    [refresh] is suspended, [isLoading] says whether one is, and the error
    banner is hidden while one is. *)
Definition single_flight (w : Controller.World) : Prop :=
  (Controller.isLoading (Controller.state w) = true /\
   Controller.pending w = 1%nat /\
   Controller.errorBannerHidden (Controller.page w) = true)
  \/
  (Controller.isLoading (Controller.state w) = false /\
   Controller.pending w = 0%nat).

(** [s'] differs from [s] in the snapshot fields and the loading flag at
    most. *)
Definition same_view (s s' : Controller.State) : Prop :=
  s' = {| Controller.health := Controller.health s';
          Controller.accountLimits := Controller.accountLimits s';
          Controller.lastUpdated := Controller.lastUpdated s';
          Controller.isLoading := Controller.isLoading s';
          Controller.autoRefresh := Controller.autoRefresh s;
          Controller.refreshInterval := Controller.refreshInterval s;
          Controller.refreshTimer := Controller.refreshTimer s;
          Controller.countdownTimer := Controller.countdownTimer s;
          Controller.searchTimeout := Controller.searchTimeout s;
          Controller.filter := Controller.filter s;
          Controller.searchQuery := Controller.searchQuery s;
          Controller.expandedAccounts := Controller.expandedAccounts s |}.

(** ** Further vocabulary: the dashboard utilities *)

(** [needle] occurs in [hay] as a contiguous run of characters. *)
Definition occurs_in (needle hay : string) : Prop :=
  exists before after, hay = before +:+ needle +:+ after.

(** The dashboard levels from worst to best. *)
Definition level_rank (level : string) : nat :=
  if String.eqb level "exhausted" then 0
  else if String.eqb level "low" then 1
  else if String.eqb level "medium" then 2
  else if String.eqb level "high" then 3
  else 4.

(** ** Further vocabulary: fractions in range *)

(** A value between 0 and 1. *)
Definition in_unit (v : Q) : Prop := (0 <= v)%Q /\ (v <= 1)%Q.

(** A fraction-or-null that is null or between 0 and 1. *)
Definition null_or_in_unit (fraction : option Q) : Prop :=
  match fraction with
  | Some v => in_unit v
  | None => True
  end.

(** Every fraction of a quotas list is null or between 0 and 1. *)
Definition quotas_in_unit (quotas : list (string * QuotaInfo)) : Prop :=
  Forall (fun entry => null_or_in_unit (remainingFraction (snd entry))) quotas.

(** ** Further vocabulary: the refresh controller *)


(** The refresh button and the status badge follow [isLoading]. *)
Definition indicators_agree (w : Controller.World) : Prop :=
  Controller.manualRefreshDisabled (Controller.page w) =
    Controller.isLoading (Controller.state w) /\
  Controller.manualRefreshLoading (Controller.page w) =
    Controller.isLoading (Controller.state w) /\
  (Controller.isLoading (Controller.state w) = true ->
   Controller.serverStatusText (Controller.page w) = "Loading...").

(** The auto-refresh interval is armed exactly when auto-refresh is on, the
    countdown interval is armed, and the two are different intervals. *)
Definition timers_agree (w : Controller.World) : Prop :=
  (Controller.autoRefresh (Controller.state w) = true <->
   Controller.refreshTimer (Controller.state w) <> None) /\
  exists c,
    Controller.countdownTimer (Controller.state w) = Some c /\
    c <= Controller.timers w /\
    forall r, Controller.refreshTimer (Controller.state w) = Some r ->
              r <= Controller.timers w /\ r <> c.

(** An event of the view: a filter, a search, a card, or the auto-refresh
    controls. *)
Definition is_view_event (e : Controller.Event) : bool :=
  match e with
  | Controller.FilterByModel _
  | Controller.SearchAccounts _
  | Controller.ToggleAccount _
  | Controller.ToggleAutoRefresh _
  | Controller.ChangeRefreshInterval _ => true
  | _ => false
  end.

(** ** Further vocabulary: the soonest reset of a family *)

(** The sooner of a reset time found so far, if any, and one more. *)
Definition min_reset (soonest : option Z) (t : Z) : option Z :=
  Some (match soonest with
        | Some s => Z.min s t
        | None => t
        end).

(** The soonest of a list of reset times, none for the empty list. *)
Definition soonest_of (times : list Z) : option Z :=
  fold_left min_reset times None.

(** The reset times that the family's models of a quotas list have set. *)
Definition resets_in (family : Utils.Family) (entries : list (string * QuotaInfo))
  : list Z :=
  flat_map
    (fun entry =>
       if family_eqb (Utils.getModelFamily (fst entry)) family
       then match resetTime (snd entry) with
            | Some t => [t]
            | None => []
            end
       else [])
    entries.

(** The same for an account; an account that is left out has none. *)
Definition family_resets (family : Utils.Family) (acc : Render.Account) : list Z :=
  if Render.unusable acc then [] else resets_in family (quota_entries acc).

(** The entry that the scan of one account's quotas ends with. *)
Definition slot_fold (family : Utils.Family) (o : option Render.PerAccount)
    (entries : list (string * QuotaInfo)) : option Render.PerAccount :=
  fold_left
    (fun o entry =>
       if family_eqb (Utils.getModelFamily (fst entry)) family
       then Some (slot_track o (null_as_zero (snd entry)) (resetTime (snd entry)))
       else o)
    entries o.

Definition slot_of (family : Utils.Family) (acc : Render.Account)
  : option Render.PerAccount :=
  if Render.unusable acc then None
  else slot_fold family None (quota_entries acc).

Definition slot_soonest (o : option Render.PerAccount) : option Z :=
  match o with
  | Some a => Render.soonestReset a
  | None => None
  end.

(** A reset time that is unset or not the epoch itself. *)
Definition unset_or_nonzero (o : option Z) : Prop :=
  match o with
  | Some t => t <> 0
  | None => True
  end.

(** The step of the soonest reset across the accounts of a family. *)
Definition across (soonest : option Z) (a : Render.PerAccount) : option Z :=
  if Render.truthy (Render.soonestReset a)
     && (negb (Render.truthy soonest)
         || match Render.soonestReset a, soonest with
            | Some x, Some s => x <? s
            | _, _ => false
            end)
  then Render.soonestReset a
  else soonest.

(** ** The browser's intervals *)

Module Intervals.

(** The ids of the intervals that [setInterval] has armed and that
    [clearInterval] has not cleared, kept beside the application. *)

(** [stopAutoRefresh]: [clearInterval(state.refreshTimer)] when it is set. *)
Definition stop (w : Controller.World) (live : gset Z) : gset Z :=
  match Controller.refreshTimer (Controller.state w) with
  | Some id => live ∖ {[id]}
  | None => live
  end.

(** [startAutoRefresh]: [stopAutoRefresh()], then [setInterval] arms the
    interval whose id the state takes. *)
Definition start (w : Controller.World) (live : gset Z) : gset Z :=
  stop w live ∪ {[Controller.timers (Controller.stopAutoRefresh w) + 1]}.

(** [startCountdownUpdater] *)
Definition startCountdown (w : Controller.World) (live : gset Z) : gset Z :=
  live ∪ {[Controller.timers w + 1]}.

(** The live intervals after an event is handled in [w]: only the
    auto-refresh controls arm or clear one. *)
Definition step (w : Controller.World) (live : gset Z) (e : Controller.Event)
  : gset Z :=
  match e with
  | Controller.ToggleAutoRefresh checked =>
      if checked then start w live else stop w live
  | Controller.ChangeRefreshInterval _ =>
      if Controller.autoRefresh (Controller.state w)
      then start (Controller.stopAutoRefresh w) (stop w live)
      else live
  | _ => live
  end.

(** The application and its live intervals, event by event. *)
Definition run (events : list Controller.Event)
    (start : Controller.World * gset Z) : Controller.World * gset Z :=
  fold_left
    (fun wl e => (Controller.step (fst wl) e, step (fst wl) (snd wl) e))
    events start.

(** [init]: one refresh, the auto-refresh interval when it is on, the
    countdown interval. *)
Definition init (w : Controller.World) : Controller.World * gset Z :=
  let w1 := Controller.refresh_begin w in
  let live := if Controller.autoRefresh (Controller.state w1)
              then start w1 ∅ else ∅ in
  let w2 := if Controller.autoRefresh (Controller.state w1)
            then Controller.startAutoRefresh w1 else w1 in
  (Controller.startCountdownUpdater w2, startCountdown w2 live).

(** The intervals the state holds a handle to. *)
Definition handles (w : Controller.World) : gset Z :=
  match Controller.countdownTimer (Controller.state w) with
  | Some c => {[c]}
  | None => ∅
  end
  ∪
  match Controller.refreshTimer (Controller.state w) with
  | Some r => {[r]}
  | None => ∅
  end.

End Intervals.

(** * Part III: proofs *)

(** ** C7: the duration formatter *)

Lemma nested_floor (ms : Z) :
  0 < ms ->
  ms / 1000 / 60 = ms / 60000 /\
  ms / 1000 / 60 / 60 = ms / 3600000 /\
  ms / 1000 / 60 / 60 / 24 = ms / 86400000.
Proof.
  intros Hms.
  rewrite !Z.div_div by lia.
  repeat split; reflexivity.
Qed.

Lemma positive_quotient (a b : Z) : 0 < b -> 0 <= a -> (a / b >? 0) = (b <=? a).
Proof.
  intros Hb Ha.
  destruct (Z.leb_spec b a) as [Hle | Hlt].
  - apply Z.gtb_lt. apply Z.div_str_pos. lia.
  - rewrite Z.div_small by lia. reflexivity.
Qed.

(** C7. For every integer [ms] the formatter answers "now" when [ms <= 0] and
    otherwise the breakdown by the largest applicable unit (days and hours,
    else hours and minutes, else minutes and seconds, else seconds); the four
    sample values of the specification are as stated. *)
Theorem formatDuration_by_units :
  (forall ms : Z, Utils.formatDuration ms = duration_by_units ms) /\
  Utils.formatDuration 0 = "now" /\
  Utils.formatDuration (-500) = "now" /\
  Utils.formatDuration 90000 = "1m 30s" /\
  Utils.formatDuration 3900000 = "1h 5m".
Proof.
  split; [| repeat split; vm_compute; reflexivity].
  intros ms. unfold Utils.formatDuration, duration_by_units.
  destruct (Z.leb_spec ms 0) as [Hle | Hpos]; [reflexivity |].
  unfold Utils.floor_div, Utils.js_rem, Utils.show.
  destruct (nested_floor ms Hpos) as (Hm & Hh & Hd).
  rewrite Hd, Hh, Hm.
  rewrite !Z.rem_mod_nonneg by (try apply Z.div_pos; lia).
  rewrite !positive_quotient by lia.
  reflexivity.
Qed.

(** ** Dictionaries *)

Section DictFacts.
Context {V : Type}.
Implicit Types (d : list (string * V)) (k : string).

Lemma get_app k d1 d2 :
  Dict.get k (d1 ++ d2) =
  match Dict.get k d1 with Some v => Some v | None => Dict.get k d2 end.
Proof.
  induction d1 as [| [k' v] d1 IH]; simpl; [reflexivity |].
  destruct (String.eqb k k'); [reflexivity | apply IH].
Qed.

Lemma get_modify k k' (f : V -> V) d :
  Dict.get k (Dict.modify k' f d) =
  if String.eqb k k' then option_map f (Dict.get k d) else Dict.get k d.
Proof.
  induction d as [| [k0 v] d IH]; simpl.
  - destruct (String.eqb k k'); reflexivity.
  - destruct (String.eqb k' k0) eqn:E1, (String.eqb k k0) eqn:E2,
      (String.eqb k k') eqn:E3; simpl; rewrite ?E2, ?E3 in *;
      try reflexivity; try exact IH;
      rewrite ?String.eqb_eq, ?String.eqb_neq in *; congruence.
Qed.

Lemma get_ensure k k' (v0 : V) d :
  Dict.get k (Dict.ensure k' v0 d) =
  match Dict.get k d with
  | Some v => Some v
  | None => if String.eqb k k' then Some v0 else None
  end.
Proof.
  unfold Dict.ensure.
  destruct (Dict.get k' d) as [v' |] eqn:Hk'.
  - destruct (Dict.get k d) eqn:Hk; [reflexivity |].
    destruct (String.eqb_spec k k'); [congruence | reflexivity].
  - rewrite get_app. simpl. reflexivity.
Qed.

Lemma get_None_not_key k d : Dict.get k d = None <-> ~ In k (Dict.keys d).
Proof.
  induction d as [| [k' v] d IH]; simpl; [tauto |].
  destruct (String.eqb_spec k k') as [-> | Hne].
  - split; [discriminate | tauto].
  - rewrite IH. split; [intros H [E | I]; [congruence | tauto] | tauto].
Qed.

Lemma modify_app_fresh k (f : V -> V) d1 d2 :
  Dict.get k d1 = None ->
  Dict.modify k f (d1 ++ d2) = d1 ++ Dict.modify k f d2.
Proof.
  induction d1 as [| [k' v] d1 IH]; simpl; [reflexivity |].
  destruct (String.eqb k k'); [discriminate |].
  intros H. rewrite IH by exact H. reflexivity.
Qed.

Lemma modify_Forall (P : V -> Prop) k (f : V -> V) d :
  (forall v, P v -> P (f v)) ->
  Forall (fun kv => P (snd kv)) d ->
  Forall (fun kv => P (snd kv)) (Dict.modify k f d).
Proof.
  intros Hf. induction 1 as [| [k' v] d Hv Hd IH]; simpl; [constructor |].
  destruct (String.eqb k k'); constructor; simpl in *; auto.
Qed.
End DictFacts.

(** ** C1: model averages of the terminal report *)

Lemma tally_Some t values :
  tally (Some t) values =
  Some {| Report.sum := fold_left Qplus values (Report.sum t);
          Report.count := Report.count t + Z.of_nat (length values) |}.
Proof.
  revert t. induction values as [| v values IH]; intros t; simpl.
  - destruct t; simpl. rewrite Z.add_0_r. reflexivity.
  - unfold tally in *. simpl. rewrite IH. simpl. do 2 f_equal. lia.
Qed.

Lemma tally_None values :
  tally None values =
  match values with
  | [] => None
  | _ => Some {| Report.sum := fold_left Qplus values 0%Q;
                 Report.count := Z.of_nat (length values) |}
  end.
Proof.
  destruct values as [| v values]; [reflexivity |].
  change (tally None (v :: values))
    with (tally (Some {| Report.sum := 0 + v; Report.count := 0 + 1 |}) values).
  rewrite tally_Some. simpl Report.sum. simpl Report.count.
  do 2 f_equal. simpl length. lia.
Qed.

Lemma accumulate_get m modelTotals entry :
  Dict.get m (Report.accumulate modelTotals entry) =
  tally (Dict.get m modelTotals) (offers m [entry]).
Proof.
  destruct entry as [modelId info]. unfold Report.accumulate, offers. simpl.
  rewrite (String.eqb_sym modelId m).
  destruct (remainingFraction info) as [fraction |].
  - rewrite get_modify, get_ensure.
    destruct (String.eqb m modelId); simpl.
    + destruct (Dict.get m modelTotals); reflexivity.
    + destruct (Dict.get m modelTotals); reflexivity.
  - destruct (String.eqb m modelId); reflexivity.
Qed.

Lemma offers_app m q1 q2 : offers m (q1 ++ q2) = offers m q1 ++ offers m q2.
Proof. unfold offers. apply flat_map_app. Qed.

Lemma tally_app o v1 v2 : tally (tally o v1) v2 = tally o (v1 ++ v2).
Proof. unfold tally. rewrite fold_left_app. reflexivity. Qed.

Lemma accumulate_all_get m quotas modelTotals :
  Dict.get m (fold_left Report.accumulate quotas modelTotals) =
  tally (Dict.get m modelTotals) (offers m quotas).
Proof.
  revert modelTotals. induction quotas as [| entry quotas IH]; intros mt.
  - reflexivity.
  - simpl fold_left. rewrite IH, accumulate_get, tally_app.
    change (entry :: quotas) with ([entry] ++ quotas).
    rewrite offers_app. reflexivity.
Qed.

Lemma checkAccount_get m modelTotals account :
  Dict.get m (Report.checkAccount modelTotals account) =
  tally (Dict.get m modelTotals) (offers m (quotas_of account)).
Proof.
  unfold Report.checkAccount, quotas_of.
  destruct (Report.fetch account); [apply accumulate_all_get | reflexivity].
Qed.

Lemma checkAccounts_get m accounts modelTotals :
  Dict.get m (fold_left Report.checkAccount accounts modelTotals) =
  tally (Dict.get m modelTotals) (contributions m accounts).
Proof.
  revert modelTotals. induction accounts as [| a accounts IH]; intros mt.
  - reflexivity.
  - simpl fold_left. rewrite IH, checkAccount_get, tally_app. reflexivity.
Qed.

Lemma modelTotals_get m accounts :
  let values := contributions m accounts in
  Dict.get m (Report.modelTotals accounts) =
  match values with
  | [] => None
  | _ => Some {| Report.sum := fold_left Qplus values 0%Q;
                 Report.count := Z.of_nat (length values) |}
  end.
Proof.
  unfold Report.modelTotals. rewrite checkAccounts_get. apply tally_None.
Qed.

Lemma get_averages m (d : list (string * Report.Totals)) :
  Dict.get m (map (fun '(modelId, totals) => (modelId, Report.average totals)) d) =
  option_map Report.average (Dict.get m d).
Proof.
  induction d as [| [k t] d IH]; simpl; [reflexivity |].
  destruct (String.eqb m k); [reflexivity | apply IH].
Qed.

Lemma accumulate_counted modelTotals entry :
  Forall counted modelTotals -> Forall counted (Report.accumulate modelTotals entry).
Proof.
  intros H. destruct entry as [modelId info]. unfold Report.accumulate.
  destruct (remainingFraction info) as [fraction |]; [| exact H].
  unfold Dict.ensure.
  destruct (Dict.get modelId modelTotals) eqn:Hget.
  - apply (modify_Forall (fun t => 0 < Report.count t)); [| exact H].
    intros v Hv. simpl. lia.
  - rewrite modify_app_fresh by exact Hget. simpl.
    rewrite String.eqb_refl. apply Forall_app. split; [exact H |].
    constructor; [unfold counted; simpl; lia | constructor].
Qed.

Lemma modelTotals_counted accounts : Forall counted (Report.modelTotals accounts).
Proof.
  unfold Report.modelTotals.
  assert (G : forall mt, Forall counted mt ->
    Forall counted (fold_left Report.checkAccount accounts mt)).
  { induction accounts as [| a accounts IH]; intros mt Hmt; [exact Hmt |].
    simpl. apply IH. unfold Report.checkAccount.
    destruct (Report.fetch a) as [quotas | msg]; [| exact Hmt].
    revert mt Hmt. induction quotas as [| e quotas IHq]; intros mt Hmt; [exact Hmt |].
    simpl. apply IHq. apply accumulate_counted. exact Hmt. }
  apply G. constructor.
Qed.

(** C1, as the code has it. For every list of accounts and every model id,
    [modelAverages] has an entry for the model exactly when some account
    holds a non-null fraction for it; the entry is the mean of the model's
    non-null fractions across the accounts (null fractions enter neither the
    sum nor the count); a model whose fractions are all null has no entry;
    every count that is divided by is at least 1. *)
Theorem modelAverages_mean_of_non_null (accounts : list Report.Account) (m : string) :
  let values := contributions m accounts in
  Dict.get m (Report.modelAverages accounts) =
    match values with
    | [] => None
    | _ => Some (Some (mean values))
    end
  /\ Forall (fun kv => 0 < Report.count (snd kv)) (Report.modelTotals accounts).
Proof.
  split; [| apply modelTotals_counted].
  unfold Report.modelAverages. rewrite get_averages, modelTotals_get.
  destruct (contributions m accounts) as [| v values]; [reflexivity |].
  simpl option_map. unfold Report.average. simpl Report.count. simpl Report.sum.
  replace (Z.of_nat (length (v :: values)) >? 0) with true
    by (symmetry; apply Z.gtb_lt; simpl length; lia).
  reflexivity.
Qed.

(** C1, as the specification words it, fails: a model that appears with
    only null fractions is not mapped to null, it has no entry at all. *)
Lemma modelAverages_all_null_absent :
  let accounts :=
    [ {| Report.email := "b@example.com";
         Report.fetch := Report.Fetched
           [("m1", {| remainingFraction := Some (4 # 10); resetTime := None |});
            ("m2", {| remainingFraction := None; resetTime := None |})] |} ] in
  appears "m2" accounts = true /\
  average_or_null (contributions "m2" accounts) = None /\
  Dict.get "m2" (Report.modelAverages accounts) <> Some None /\
  Dict.get "m2" (Report.modelAverages accounts) = None.
Proof.
  vm_compute. repeat split; discriminate.
Qed.

(** ** C6: severity tiers of the terminal report *)

Lemma floor_at_least (n : Z) (x : Q) : (n <= Qfloor x) <-> (inject_Z n <= x)%Q.
Proof.
  split; intros H.
  - apply Qle_trans with (inject_Z (Qfloor x)); [| apply Qfloor_le].
    rewrite <- Zle_Qle. exact H.
  - rewrite <- (Qfloor_Z n). apply Qfloor_resp_le. exact H.
Qed.

Lemma rounded_percent_at_least (n : Z) (f : Q) :
  (Utils.Math_round (f * 100) >=? n) = Qle_bool ((2 * inject_Z n - 1) * (1 # 200)) f.
Proof.
  unfold Utils.Math_round.
  rewrite Z.geb_leb.
  destruct (Qle_bool ((2 * inject_Z n - 1) * (1 # 200)) f) eqn:E.
  - apply Qle_bool_iff in E. apply Z.leb_le. apply floor_at_least.
    set (x := inject_Z n) in *. lra.
  - apply Z.leb_gt.
    assert (N : ~ (n <= Qfloor (f * 100 + (1 # 2)))); [| lia].
    intros H. apply floor_at_least in H.
    assert (C : Qle_bool ((2 * inject_Z n - 1) * (1 # 200)) f = true);
      [apply Qle_bool_iff; set (x := inject_Z n) in *; lra | congruence].
Qed.

Lemma Qle_bool_proper_l (a b f : Q) : (a == b)%Q -> Qle_bool a f = Qle_bool b f.
Proof.
  intros E. destruct (Qle_bool b f) eqn:B.
  - apply Qle_bool_iff. apply Qle_bool_iff in B. rewrite E. exact B.
  - destruct (Qle_bool a f) eqn:A; [| reflexivity].
    apply Qle_bool_iff in A. rewrite E in A. apply Qle_bool_iff in A. congruence.
Qed.

Lemma shown_tier_paint (text : string) :
  shown_tier (Report.paint "32" text) = Some tier_high /\
  shown_tier (Report.paint "33" text) = Some tier_mid /\
  shown_tier (Report.paint "31" text) = Some tier_low.
Proof. destruct text; repeat split; vm_compute; reflexivity. Qed.

(** C6, as the code has it. The report classifies the percentage rounded to
    the nearest integer: null shows as n/a; a rounded percentage of at least
    50 (a fraction of at least 0.495) is in the high tier; one of at least 20
    (a fraction of at least 0.195) in the mid tier; every other fraction in
    the low tier. *)
Theorem formatPercent_tier_of_rounded_percent (fraction : option Q) :
  shown_tier (Report.formatPercent fraction) = Some (tier_by_rounded_percent fraction).
Proof.
  destruct fraction as [f |]; [| vm_compute; reflexivity].
  unfold Report.formatPercent, tier_by_rounded_percent.
  rewrite !rounded_percent_at_least.
  rewrite (Qle_bool_proper_l _ (495 # 1000) f) by reflexivity.
  rewrite (Qle_bool_proper_l ((2 * inject_Z 20 - 1) * (1 # 200)) (195 # 1000) f) by reflexivity.
  generalize (Utils.show (Utils.Math_round (f * 100)) +:+ "%"); intros text.
  destruct (shown_tier_paint text) as (Hhigh & Hmid & Hlow).
  destruct (Qle_bool (495 # 1000) f); [exact Hhigh |].
  destruct (Qle_bool (195 # 1000) f); [exact Hmid | exact Hlow].
Qed.

(** C6, as the specification words it, fails: the fraction 0.497 is below
    0.50, so the thresholds on the fraction put it in the mid tier, but it is
    shown as 50% in the high tier. *)
Lemma formatPercent_tier_not_by_fraction :
  let f := (497 # 1000)%Q in
  (0 <= f)%Q /\ (f <= 1)%Q /\
  tier_by_fraction (Some f) = tier_mid /\
  shown_tier (Report.formatPercent (Some f)) = Some tier_high /\
  shown_tier (Report.formatPercent (Some f)) <> Some (tier_by_fraction (Some f)).
Proof.
  repeat split; try (vm_compute; congruence).
Qed.

(** ** C10: masked e-mail addresses *)

Lemma split_length c s : length (Utils.split c s) = S (occurrences c s).
Proof.
  induction s as [| x s IH]; simpl; [reflexivity |].
  destruct (Ascii.eqb x c); simpl; [rewrite IH; reflexivity |].
  destruct (Utils.split c s) as [| p ps]; simpl in *; [discriminate | exact IH].
Qed.

Lemma split_free c s : occurrences c s = 0%nat -> Utils.split c s = [s].
Proof.
  induction s as [| x s IH]; simpl; [reflexivity |].
  destruct (Ascii.eqb x c); simpl; [discriminate |].
  intros H. rewrite IH by exact H. reflexivity.
Qed.

Lemma split_join c a b :
  occurrences c a = 0%nat ->
  Utils.split c (a +:+ String c b) = a :: Utils.split c b.
Proof.
  induction a as [| x a IH]; simpl.
  - intros _. rewrite Ascii.eqb_refl. reflexivity.
  - destruct (Ascii.eqb x c); simpl; [discriminate |].
    intros H. rewrite IH by exact H. reflexivity.
Qed.

Lemma split_one c s b : Utils.split c s = [b] -> s = b /\ occurrences c s = 0%nat.
Proof.
  intros H.
  assert (O : occurrences c s = 0%nat).
  { pose proof (split_length c s) as L. rewrite H in L. simpl in L. lia. }
  rewrite (split_free c s O) in H. split; [congruence | exact O].
Qed.

Lemma split_two c s a b :
  Utils.split c s = [a; b] ->
  s = a +:+ String c b /\ occurrences c a = 0%nat /\ occurrences c b = 0%nat.
Proof.
  revert a. induction s as [| x s IH]; intros a; simpl; [discriminate |].
  destruct (Ascii.eqb_spec x c) as [-> | Hne].
  - intros H. injection H as <- H.
    apply split_one in H as [-> H]. repeat split; try reflexivity. exact H.
  - destruct (Utils.split c s) as [| p ps]; [discriminate |].
    intros H. injection H as <- ->.
    destruct (IH p eq_refl) as (-> & Hp & Hb).
    repeat split; [| exact Hb].
    simpl. destruct (Ascii.eqb_spec x c); [contradiction | exact Hp].
Qed.

Lemma append_assoc (a b c : string) : (a +:+ b) +:+ c = a +:+ (b +:+ c).
Proof.
  induction a as [| x a IH]; [reflexivity |].
  change (String x ((a +:+ b) +:+ c) = String x (a +:+ (b +:+ c))).
  f_equal. exact IH.
Qed.

Lemma maskEmail_nonempty (s : string) :
  s <> "" ->
  Utils.maskEmail (Some s) =
  match Utils.split "@" s with
  | [local; domain] =>
      (if (4 <? String.length local)%nat
       then Utils.slice0 4 local +:+ "***"
       else Utils.slice0 2 local +:+ "***") +:+ "@" +:+ domain
  | _ => s
  end.
Proof. destruct s; [congruence | reflexivity]. Qed.

Lemma maskEmail_wellformed (local domain : string) :
  occurrences "@" local = 0%nat -> occurrences "@" domain = 0%nat ->
  Utils.maskEmail (Some (local +:+ "@" +:+ domain)) =
  (if (4 <? String.length local)%nat
   then substring 0 4 local +:+ "***"
   else substring 0 2 local +:+ "***") +:+ "@" +:+ domain.
Proof.
  intros Hl Hd.
  rewrite maskEmail_nonempty by (destruct local; discriminate).
  change ("@" +:+ domain) with (String "@" domain).
  rewrite split_join, (split_free _ domain) by assumption.
  reflexivity.
Qed.

(** C10. [maskEmail] answers on every input, and what it answers is this: the
    empty string for an absent or empty address; the address itself when it
    does not hold exactly one '@'; otherwise the first 4 characters of the
    local part when that has more than 4, else its first 2, then '***', '@'
    and the whole domain. *)
Theorem maskEmail_total_and_masks (email : option string) (shown : string) :
  masks email shown <-> shown = Utils.maskEmail email.
Proof.
  split.
  - intros M. destruct M as [| | email Hne Hocc | local domain Hl Hd Hlen
                             | local domain Hl Hd Hlen].
    + reflexivity.
    + reflexivity.
    + rewrite maskEmail_nonempty by exact Hne.
      pose proof (split_length "@" email) as L.
      destruct (Utils.split "@" email) as [| a [| b [| c rest]]]; try reflexivity.
      simpl in L. lia.
    + rewrite maskEmail_wellformed by assumption.
      apply Nat.ltb_lt in Hlen. rewrite Hlen. rewrite !append_assoc.
      reflexivity.
    + rewrite maskEmail_wellformed by assumption.
      apply Nat.ltb_ge in Hlen. rewrite Hlen. rewrite !append_assoc.
      reflexivity.
  - intros ->. destruct email as [s |]; [| constructor].
    destruct (string_dec s "") as [-> | Hne]; [constructor |].
    rewrite maskEmail_nonempty by exact Hne.
    destruct (Utils.split "@" s) as [| a [| b [| c rest]]] eqn:E;
      try (apply masks_malformed; [exact Hne |];
           pose proof (split_length "@" s) as L; rewrite E in L; simpl in L; lia).
    apply split_two in E as (-> & Ha & Hb).
    change (String "@" b) with ("@" +:+ b).
    destruct (4 <? String.length a)%nat eqn:Hlen.
    + rewrite !append_assoc. apply masks_long; try assumption.
      apply Nat.ltb_lt. exact Hlen.
    + rewrite !append_assoc. apply masks_short; try assumption.
      apply Nat.ltb_ge. exact Hlen.
Qed.

(** ** The scan of [Render.globalQuota] *)

Lemma scanAccount_left_out (s : Render.Scan) (acc : Render.Account) :
  left_out acc -> Render.scanAccount s acc = s.
Proof.
  unfold left_out, Render.scanAccount, Render.unusable.
  intros [[Hok Hrl] | Hnone].
  - apply String.eqb_neq in Hok, Hrl. rewrite Hok, Hrl. reflexivity.
  - rewrite Hnone. destruct (_ && _); reflexivity.
Qed.

(** C9. An account whose status is neither 'ok' nor 'rate-limited', or that
    has no limits mapping, contributes nothing: with or without it the scan
    collects the same per-account entries and the same exhausted quotas, and
    so the family gauges, the per-family soonest resets and the next global
    reset are the same, whatever its models hold. *)
Theorem left_out_accounts_contribute_nothing
    (now : Z) (before after : list Render.Account) (acc : Render.Account) :
  left_out acc ->
  Render.scan (before ++ acc :: after) = Render.scan (before ++ after) /\
  Render.aggregates now (before ++ acc :: after) = Render.aggregates now (before ++ after).
Proof.
  intros H.
  assert (S : Render.scan (before ++ acc :: after) = Render.scan (before ++ after)).
  { unfold Render.scan. rewrite !fold_left_app. simpl fold_left.
    rewrite (scanAccount_left_out _ acc H). reflexivity. }
  split; [exact S |].
  unfold Render.aggregates. rewrite S. reflexivity.
Qed.

Lemma left_out_accounts_contribute_nothing_witness :
  let invalid :=
    {| Render.email := "c@example.com"; Render.status := "invalid";
       Render.limits := Some
         [("claude-sonnet", Some {| remainingFraction := Some 0%Q;
                                    resetTime := Some 2000 |})] |} in
  let ok :=
    {| Render.email := "a@example.com"; Render.status := "ok";
       Render.limits := Some
         [("claude-sonnet", Some {| remainingFraction := Some (1 # 2)%Q;
                                    resetTime := Some 3000 |})] |} in
  left_out invalid /\
  Render.aggregates 1000 ([ok] ++ invalid :: []) = Render.aggregates 1000 ([ok] ++ []).
Proof.
  intros invalid ok.
  assert (H : left_out invalid) by (left; split; discriminate).
  split; [exact H |].
  exact (proj2 (left_out_accounts_contribute_nothing 1000 [ok] [] invalid H)).
Defined.

(** ** C2: the next global reset *)

Lemma track_allResets_free email s entry :
  Render.allResets (Render.scanModel email s entry) =
  Render.allResets s ++
  match snd entry with
  | Some limit => exhausted_entry (fst entry, limit)
  | None => []
  end.
Proof.
  destruct entry as [modelId [limit |]]; simpl; [| rewrite app_nil_r; reflexivity].
  unfold exhausted_entry. simpl.
  destruct (Utils.getModelFamily modelId), (resetTime limit) as [rt |],
    (remainingFraction limit) as [f |]; simpl;
    rewrite ?app_nil_r; try reflexivity;
    destruct (Qeq_bool f 0); simpl; rewrite ?app_nil_r; reflexivity.
Qed.

Lemma scanModels_allResets email limits s :
  Render.allResets (fold_left (Render.scanModel email) limits s) =
  Render.allResets s ++
  flat_map exhausted_entry
    (flat_map (fun entry => match snd entry with
                            | Some limit => [(fst entry, limit)]
                            | None => []
                            end) limits).
Proof.
  revert s. induction limits as [| entry limits IH]; intros s; simpl.
  - rewrite app_nil_r. reflexivity.
  - rewrite IH, track_allResets_free, flat_map_app, <- app_assoc.
    destruct (snd entry); simpl; rewrite ?app_nil_r; reflexivity.
Qed.

Lemma scanAccount_allResets s acc :
  Render.allResets (Render.scanAccount s acc) = Render.allResets s ++ exhausted acc.
Proof.
  unfold Render.scanAccount, exhausted, quota_entries.
  destruct (Render.unusable acc); [rewrite app_nil_r; reflexivity |].
  destruct (Render.limits acc) as [limits |]; [| rewrite app_nil_r; reflexivity].
  apply scanModels_allResets.
Qed.

Lemma scan_allResets accounts :
  Render.allResets (Render.scan accounts) = flat_map exhausted accounts.
Proof.
  unfold Render.scan.
  assert (G : forall s, Render.allResets (fold_left Render.scanAccount accounts s) =
                        Render.allResets s ++ flat_map exhausted accounts).
  { induction accounts as [| acc accounts IH]; intros s; simpl.
    - rewrite app_nil_r. reflexivity.
    - rewrite IH, scanAccount_allResets, <- app_assoc. reflexivity. }
  rewrite G. reflexivity.
Qed.

Lemma candidates_future now accounts :
  candidates now accounts = List.filter (future now) (flat_map exhausted accounts).
Proof.
  unfold candidates. induction accounts as [| acc accounts IH]; [reflexivity |].
  simpl. rewrite List.filter_app, <- IH. f_equal.
  unfold exhausted. destruct (Render.unusable acc); [reflexivity |].
  induction (quota_entries acc) as [| entry entries IHe]; [reflexivity |].
  simpl. rewrite List.filter_app, <- IHe. f_equal.
  unfold candidate, exhausted_entry, future.
  destruct (resetTime (snd entry)) as [t |]; [| reflexivity].
  destruct (remainingFraction (snd entry)) as [f |].
  - destruct (Qeq_bool f 0); simpl; destruct (t >? now); reflexivity.
  - simpl. destruct (t >? now); reflexivity.
Qed.

Lemma pickReset_soonest_first now resets :
  soonest_first (List.filter (future now) resets)
                (fold_left (Render.pickReset now) resets None).
Proof.
  induction resets as [| r resets IH] using rev_ind; [reflexivity |].
  rewrite fold_left_app, List.filter_app. simpl fold_left. simpl List.filter.
  unfold Render.pickReset at 1. unfold future at 2.
  destruct (Render.time r >? now) eqn:Hfut; simpl andb.
  2: { rewrite app_nil_r. exact IH. }
  destruct (fold_left (Render.pickReset now) resets None) as [n |]; simpl in IH.
  - destruct IH as (earlier & later & Hcs & Hearlier & Hlater).
    destruct (Z.ltb_spec (Render.time r) (Render.time n)) as [Hlt | Hge]; simpl.
    + exists (List.filter (future now) resets), []. split; [reflexivity |].
      split; [| constructor].
      rewrite Hcs. apply Forall_app. split.
      * eapply List.Forall_impl; [| exact Hearlier]. simpl. intros c Hc. lia.
      * constructor; [lia |].
        eapply List.Forall_impl; [| exact Hlater]. simpl. intros c Hc. lia.
    + exists earlier, (later ++ [r]). split; [| split].
      * rewrite Hcs, <- app_assoc. reflexivity.
      * exact Hearlier.
      * apply Forall_app. split; [exact Hlater |]. constructor; [lia | constructor].
  - rewrite IH. simpl. exists [], []. repeat split; constructor.
Qed.

(** C2, as the code has it. A quota is a candidate exactly when its account
    is 'ok' or 'rate-limited', its reset time is set and strictly later than
    now, and its fraction is 0 or null (null is read as 0); the panel takes
    a candidate with the smallest reset time, and among those the first in
    the order of the snapshot (accounts, then models); it takes none only
    when there is no candidate. *)
Theorem nextReset_soonest_candidate (now : Z) (accounts : list Render.Account) :
  soonest_first (candidates now accounts)
                (Render.nextReset (Render.aggregates now accounts)).
Proof.
  unfold Render.aggregates. simpl Render.nextReset.
  rewrite scan_allResets, candidates_future.
  apply pickReset_soonest_first.
Qed.

(** C2, as the specification words it, fails: a quota whose fraction is null
    and whose reset lies ahead is no candidate by the specification, yet the
    panel takes it. *)
Lemma nextReset_takes_null_fraction :
  let accounts :=
    [ {| Render.email := "a@example.com"; Render.status := "ok";
         Render.limits := Some
           [("claude-sonnet", Some {| remainingFraction := None;
                                      resetTime := Some 1500 |})] |} ] in
  candidates_as_specified 1000 accounts = [] /\
  Render.nextReset (Render.aggregates 1000 accounts) =
    Some {| Render.time := 1500; Render.model := "claude-sonnet" |} /\
  ~ soonest_first (candidates_as_specified 1000 accounts)
                  (Render.nextReset (Render.aggregates 1000 accounts)).
Proof.
  intros accounts.
  assert (C : candidates_as_specified 1000 accounts = []) by reflexivity.
  assert (N : Render.nextReset (Render.aggregates 1000 accounts) =
              Some {| Render.time := 1500; Render.model := "claude-sonnet" |})
    by (vm_compute; reflexivity).
  split; [exact C | split; [exact N |]].
  rewrite C, N. simpl. intros (earlier & later & H & _).
  destruct earlier; discriminate.
Qed.

(** ** C3: family gauges *)

Lemma track_slot pa0 email o fraction rt :
  Dict.get email pa0 = None ->
  Render.track (pa0 ++ slot email o) email fraction rt =
  pa0 ++ slot email (Some (slot_track o fraction rt)).
Proof.
  intros Hfresh. unfold Render.track, Dict.ensure, slot_track.
  rewrite get_app, Hfresh.
  destruct o as [a |]; simpl slot; simpl Dict.get;
    rewrite ?String.eqb_refl, ?app_nil_r;
    destruct rt as [rt |];
    repeat (rewrite modify_app_fresh by exact Hfresh;
            simpl Dict.modify; rewrite String.eqb_refl);
    reflexivity.
Qed.

Lemma slot_track_totals o fraction rt :
  Render.sum (slot_track o fraction rt) = (slot_sum o + fraction)%Q /\
  Render.count (slot_track o fraction rt) = slot_count o + 1.
Proof.
  unfold slot_track. destruct o as [a |], rt as [rt |]; simpl;
    try (destruct (_ || _)); simpl; split; reflexivity.
Qed.

Lemma values_in_cons family modelId q entries :
  values_in family ((modelId, q) :: entries) =
  (if family_eqb (Utils.getModelFamily modelId) family
   then [null_as_zero q] else []) ++ values_in family entries.
Proof. reflexivity. Qed.

Lemma get_In_NoDup {V : Type} (d : list (string * V)) k v :
  NoDup (Dict.keys d) -> In (k, v) d -> Dict.get k d = Some v.
Proof.
  unfold Dict.keys. induction d as [| [k' v'] d IH]; simpl; [tauto |].
  intros Hnodup [Heq | Hin].
  - injection Heq as -> ->. rewrite String.eqb_refl. reflexivity.
  - apply NoDup_cons in Hnodup as (Hnotin & Hnodup).
    destruct (String.eqb_spec k k') as [-> | Hne]; [| apply IH; assumption].
    exfalso. apply Hnotin. apply list_elem_of_In, in_map_iff.
    exists (k', v). split; [reflexivity | exact Hin].
Qed.

Lemma NoDup_map_filter {A B : Type} (f : A -> B) (p : A -> bool) (l : list A) :
  NoDup (map f l) -> NoDup (map f (List.filter p l)).
Proof.
  induction l as [| x l IH]; simpl; [intros; constructor |].
  intros Hnodup. apply NoDup_cons in Hnodup as (Hnotin & Hnodup).
  destruct (p x); simpl; [| apply IH; exact Hnodup].
  apply NoDup_cons. split; [| apply IH; exact Hnodup].
  intros Hin. apply Hnotin.
  apply list_elem_of_In, in_map_iff in Hin as (y & Hy & Hin).
  apply List.filter_In in Hin as (Hin & _).
  apply list_elem_of_In, in_map_iff. exists y. split; assumption.
Qed.

Section Family.
Variable family : Utils.Family.
Hypothesis recognised : family <> Utils.unknown.

Lemma scanModel_perAccount email s modelId limit :
  perAccount family (Render.scanModel email s (modelId, Some limit)) =
  if family_eqb (Utils.getModelFamily modelId) family
  then Render.track (perAccount family s) email (null_as_zero limit) (resetTime limit)
  else perAccount family s.
Proof.
  unfold Render.scanModel, null_as_zero.
  destruct family; [| | congruence];
    destruct (Utils.getModelFamily modelId); simpl;
    destruct (resetTime limit); simpl; try reflexivity;
    destruct (Qeq_bool _ 0); reflexivity.
Qed.

Lemma scanModels_slot email pa0 limits :
  Dict.get email pa0 = None ->
  forall s o,
    perAccount family s = pa0 ++ slot email o ->
    exists o',
      perAccount family (fold_left (Render.scanModel email) limits s) =
        pa0 ++ slot email o' /\
      let values :=
        values_in family
          (flat_map (fun entry => match snd entry with
                                  | Some limit => [(fst entry, limit)]
                                  | None => []
                                  end) limits) in
      match values with
      | [] => o' = o
      | _ => exists a, o' = Some a /\
                       Render.sum a = fold_left Qplus values (slot_sum o) /\
                       Render.count a = slot_count o + Z.of_nat (length values)
      end.
Proof.
  intros Hfresh. induction limits as [| [modelId [limit |]] limits IH]; intros s o Hs.
  - exists o. split; [exact Hs | reflexivity].
  - simpl fold_left. simpl flat_map. rewrite values_in_cons.
    pose proof (scanModel_perAccount email s modelId limit) as Hstep.
    destruct (family_eqb (Utils.getModelFamily modelId) family).
    + rewrite Hs, track_slot in Hstep by exact Hfresh.
      destruct (IH _ _ Hstep) as (o' & Ho' & Hvalues).
      exists o'. split; [exact Ho' |].
      destruct (slot_track_totals o (null_as_zero limit) (resetTime limit))
        as (Hsum & Hcount).
      simpl app. cbv zeta in Hvalues |- *.
      destruct (values_in family _) as [| v values].
      * exists (slot_track o (null_as_zero limit) (resetTime limit)).
        split; [exact Hvalues |]. simpl. split; [exact Hsum | lia].
      * destruct Hvalues as (a & -> & Ha_sum & Ha_count).
        exists a. split; [reflexivity |].
        simpl slot_sum in Ha_sum. simpl slot_count in Ha_count.
        rewrite Hsum in Ha_sum. rewrite Hcount in Ha_count.
        split; [exact Ha_sum |]. rewrite Ha_count. simpl length. lia.
    + rewrite Hs in Hstep. exact (IH _ _ Hstep).
  - simpl fold_left. simpl flat_map. apply IH. exact Hs.
Qed.

Lemma scanAccount_perAccount s acc :
  Dict.get (Render.email acc) (perAccount family s) = None ->
  match family_values family acc with
  | [] => perAccount family (Render.scanAccount s acc) = perAccount family s
  | _ => exists a,
      perAccount family (Render.scanAccount s acc) =
        perAccount family s ++ [(Render.email acc, a)] /\
      summarises family acc (Render.email acc, a)
  end.
Proof.
  intros Hfresh.
  assert (V : family_values family acc =
              if Render.unusable acc then []
              else values_in family (quota_entries acc)) by reflexivity.
  unfold summarises. rewrite V. clear V.
  unfold Render.scanAccount, quota_entries.
  destruct (Render.unusable acc); [reflexivity |].
  destruct (Render.limits acc) as [limits |]; [| reflexivity].
  assert (Hs : perAccount family s =
               perAccount family s ++ slot (Render.email acc) None)
    by (simpl; rewrite app_nil_r; reflexivity).
  destruct (scanModels_slot (Render.email acc) (perAccount family s) limits
              Hfresh s None Hs) as (o' & Ho' & Hvalues).
  cbv zeta in Hvalues.
  destruct (values_in family _) as [| v values].
  - subst o'. simpl in Ho'. rewrite app_nil_r in Ho'. exact Ho'.
  - destruct Hvalues as (a & -> & Hsum & Hcount).
    exists a. split; [exact Ho' |].
    simpl fst. simpl snd. simpl slot_sum in Hsum. simpl slot_count in Hcount.
    split; [reflexivity |]. split; [exact Hsum | exact Hcount].
Qed.

Lemma summarises_keys cs pa :
  Forall2 (summarises family) cs pa -> Dict.keys pa = map Render.email cs.
Proof.
  unfold Dict.keys.
  induction 1 as [| c kv cs pa (Hk & _) _ IHk]; [reflexivity |].
  simpl. rewrite Hk, IHk. reflexivity.
Qed.

Lemma scan_perAccount accounts :
  NoDup (map Render.email accounts) ->
  Forall2 (summarises family) (contributing family accounts)
          (perAccount family (Render.scan accounts)).
Proof.
  induction accounts as [| acc accounts IH] using rev_ind; intros Hnodup.
  - destruct family; constructor.
  - rewrite map_app in Hnodup. simpl in Hnodup.
    apply NoDup_app in Hnodup as (Hnodup & Hnew & _).
    specialize (IH Hnodup).
    unfold Render.scan, contributing in *.
    rewrite fold_left_app, List.filter_app. simpl fold_left. simpl List.filter.
    assert (Hfresh : Dict.get (Render.email acc)
              (perAccount family
                 (fold_left Render.scanAccount accounts
                    {| Render.claudePerAccount := [];
                       Render.geminiPerAccount := [];
                       Render.allResets := [] |})) = None).
    { apply get_None_not_key. intros Hin.
      apply (Hnew (Render.email acc)); [| left].
      rewrite (summarises_keys _ _ IH) in Hin.
      apply in_map_iff in Hin as (c & Hc & Hin).
      apply List.filter_In in Hin as (Hin & _).
      apply list_elem_of_In, in_map_iff. exists c. split; [exact Hc | exact Hin]. }
    pose proof (scanAccount_perAccount _ acc Hfresh) as Hstep.
    destruct (family_values family acc) as [| v values].
    + rewrite Hstep, app_nil_r. exact IH.
    + destruct Hstep as (a & -> & Ha).
      apply Forall2_app; [exact IH |]. constructor; [exact Ha | constructor].
Qed.

Lemma familyStep_fold pa l cs :
  Forall2 (summarises family) cs l ->
  (forall kv, In kv l -> Dict.get (fst kv) pa = Some (snd kv)) ->
  forall total soonest,
    fst (fold_left (Render.familyStep pa) (Dict.keys l) (total, soonest)) =
    fold_left Qplus (map (account_scalar family) cs) total.
Proof.
  unfold Dict.keys.
  induction 1 as [| c kv cs l (Hk & Hsum & Hcount) _ IH]; intros Hget total soonest.
  - reflexivity.
  - simpl map. simpl fold_left.
    rewrite (Hget kv) by (left; reflexivity).
    rewrite Hsum, Hcount.
    rewrite IH by (intros kv' Hin; apply Hget; right; exact Hin).
    reflexivity.
Qed.

Lemma familyAverage_gauge accounts pa :
  NoDup (Dict.keys pa) ->
  Forall2 (summarises family) (contributing family accounts) pa ->
  fst (Render.familyAverage pa) = family_gauge family accounts.
Proof.
  intros Hnodup Hall. unfold Render.familyAverage, family_gauge.
  pose proof (familyStep_fold pa pa _ Hall) as Hfold.
  pose proof (Forall2_length _ _ _ Hall) as Hlen.
  destruct Hall as [| c kv cs l Hc Hcs]; [reflexivity |].
  set (cs' := c :: cs) in *. set (pa := kv :: l) in *.
  replace (0 <? length (Dict.keys pa))%nat with true by reflexivity.
  specialize (Hfold (fun kv' Hin => get_In_NoDup pa (fst kv') (snd kv') Hnodup
                                     ltac:(destruct kv'; exact Hin)) 0%Q None).
  destruct (fold_left (Render.familyStep pa) (Dict.keys pa) (0%Q, None))
    as [total soonest].
  simpl in Hfold. subst total. simpl fst.
  unfold mean. unfold Dict.keys. rewrite !length_map, Hlen. reflexivity.
Qed.

Lemma scan_gauge accounts :
  NoDup (map Render.email accounts) ->
  fst (Render.familyAverage (perAccount family (Render.scan accounts))) =
    family_gauge family accounts /\
  Dict.keys (perAccount family (Render.scan accounts)) =
    map Render.email (contributing family accounts).
Proof.
  intros Hnodup.
  pose proof (scan_perAccount accounts Hnodup) as Hall.
  pose proof (summarises_keys _ _ Hall) as Hkeys.
  split; [| exact Hkeys].
  apply familyAverage_gauge; [| exact Hall].
  rewrite Hkeys. apply NoDup_map_filter. exact Hnodup.
Qed.

End Family.

(** C3. In a snapshot whose accounts have distinct e-mail addresses, each
    family gauge is the unweighted mean, over the accounts that have a model
    of the family, of the per-account scalar; the scalar of an account is the
    mean of its family models' fractions with a null fraction counted as 0.
    In particular an account with the family models {m1: 0.5, m2: null}
    contributes 0.25. *)
Theorem familyGauge_mean_of_account_means
    (now : Z) (accounts : list Render.Account) :
  NoDup (map Render.email accounts) ->
  let g := Render.aggregates now accounts in
  Render.claudeAvgFraction g = family_gauge Utils.claude accounts /\
  Render.claudeAccounts g = map Render.email (contributing Utils.claude accounts) /\
  Render.geminiAvgFraction g = family_gauge Utils.gemini accounts /\
  Render.geminiAccounts g = map Render.email (contributing Utils.gemini accounts) /\
  (forall email : string,
     let acc :=
       {| Render.email := email; Render.status := "ok";
          Render.limits := Some
            [("claude-m1", Some {| remainingFraction := Some (1 # 2)%Q;
                                   resetTime := None |});
             ("claude-m2", Some {| remainingFraction := None;
                                   resetTime := None |})] |} in
     account_scalar Utils.claude acc = (1 # 4)%Q /\
     Render.claudeAvgFraction (Render.aggregates now [acc]) = (1 # 4)%Q).
Proof.
  intros Hnodup g.
  destruct (scan_gauge Utils.claude ltac:(discriminate) accounts Hnodup) as (Hc & Hck).
  destruct (scan_gauge Utils.gemini ltac:(discriminate) accounts Hnodup) as (Hg & Hgk).
  split; [exact Hc |]. split; [exact Hck |]. split; [exact Hg |]. split; [exact Hgk |].
  intros email acc. split; [vm_compute; reflexivity |].
  assert (Hone : NoDup (map Render.email [acc]))
    by (simpl; apply NoDup_cons; split; [apply not_elem_of_nil | constructor]).
  destruct (scan_gauge Utils.claude ltac:(discriminate) [acc] Hone) as (Hacc & _).
  unfold Render.aggregates. simpl Render.claudeAvgFraction.
  simpl perAccount in Hacc. rewrite Hacc. vm_compute. reflexivity.
Qed.

Lemma familyGauge_mean_of_account_means_witness :
  let accounts :=
    [ {| Render.email := "a@example.com"; Render.status := "ok";
         Render.limits := Some
           [("claude-sonnet", Some {| remainingFraction := Some (1 # 2)%Q;
                                      resetTime := None |});
            ("claude-opus", Some {| remainingFraction := None;
                                    resetTime := Some 5000 |});
            ("gemini-pro", Some {| remainingFraction := Some 1%Q;
                                   resetTime := None |})] |};
      {| Render.email := "b@example.com"; Render.status := "rate-limited";
         Render.limits := Some
           [("claude-sonnet", Some {| remainingFraction := Some (3 # 4)%Q;
                                      resetTime := None |})] |} ] in
  NoDup (map Render.email accounts) /\
  Render.claudeAvgFraction (Render.aggregates 1000 accounts) =
    family_gauge Utils.claude accounts.
Proof.
  intros accounts.
  assert (H : NoDup (map Render.email accounts)).
  { simpl. apply NoDup_cons. split.
    - intros Hin. apply list_elem_of_In in Hin. simpl in Hin.
      destruct Hin as [Hin | []]. discriminate Hin.
    - apply NoDup_cons. split; [apply not_elem_of_nil | constructor]. }
  split; [exact H |].
  exact (proj1 (familyGauge_mean_of_account_means 1000 accounts H)).
Defined.


(** ** The refresh controller *)

Lemma step_keeps_snapshot (w : Controller.World) (e : Controller.Event) :
  is_settlement e = false ->
  snapshot (Controller.state (Controller.step w e)) = snapshot (Controller.state w).
Proof.
  intros He. destruct e; try discriminate He; simpl;
    unfold Controller.refresh_begin, Controller.toggleAccount,
      Controller.toggleAutoRefresh, Controller.changeRefreshInterval;
    simpl;
    repeat match goal with
           | |- context [if ?b then _ else _] => destruct b; simpl
           | |- context [match ?o with Some _ => _ | None => _ end] =>
               destruct o; simpl
           end;
    reflexivity.
Qed.

Lemma run_keeps_snapshot (during : list Controller.Event) (w : Controller.World) :
  Forall (fun e => is_settlement e = false) during ->
  snapshot (Controller.state (Controller.run during w)) = snapshot (Controller.state w).
Proof.
  unfold Controller.run. intros H. revert w.
  induction H as [| e during He _ IH]; intros w; [reflexivity |].
  simpl. rewrite IH. apply step_keeps_snapshot. exact He.
Qed.

(** C4. Whatever the user does while a refresh waits for its two requests:
    when either request fails the snapshot fields of the state are what they
    were before the refresh, none of them is written, and the error banner
    is shown with the message of the failure; when both succeed, the three
    snapshot fields are replaced together by what the requests gave. *)
Theorem refresh_all_or_nothing
    (w : Controller.World) (during : list Controller.Event)
    (now : Z) (h : Controller.Settled Controller.Health)
    (l : Controller.Settled Controller.AccountLimits)
    (healthFirst : bool) (renderThrows : option string) :
  Forall (fun e => is_settlement e = false) during ->
  let w' := Controller.refresh_resume now h l healthFirst renderThrows
              (Controller.run during (Controller.refresh_begin w)) in
  match Controller.Promise_all h l healthFirst with
  | Controller.Rejected message =>
      (rejected h \/ rejected l) /\
      snapshot (Controller.state w') = snapshot (Controller.state w) /\
      Controller.errorBannerHidden (Controller.page w') = false /\
      Controller.errorMessage (Controller.page w') = "Failed to connect: " +:+ message
  | Controller.Resolved (hv, lv) =>
      h = Controller.Resolved hv /\ l = Controller.Resolved lv /\
      snapshot (Controller.state w') = (Some hv, Some lv, Some now)
  end.
Proof.
  intros Hduring w'.
  assert (Hbefore : snapshot (Controller.state
                      (Controller.run during (Controller.refresh_begin w))) =
                    snapshot (Controller.state w)).
  { rewrite run_keeps_snapshot by exact Hduring.
    exact (step_keeps_snapshot w Controller.ManualRefresh eq_refl). }
  subst w'. unfold Controller.refresh_resume.
  destruct h as [hv | mh], l as [lv | ml]; simpl Controller.Promise_all; cbv iota beta.
  - repeat split. destruct renderThrows; reflexivity.
  - split; [right; exact I |]. split; [exact Hbefore |]. split; reflexivity.
  - split; [left; exact I |]. split; [exact Hbefore |]. split; reflexivity.
  - split; [left; exact I |]. split; [exact Hbefore |]. split; reflexivity.
Qed.

Lemma refresh_all_or_nothing_witness :
  let during := [Controller.FilterByModel "claude";
                 Controller.ToggleAccount "a@example.com";
                 Controller.ManualRefresh] in
  let h := Controller.Rejected "Health check failed: 500" in
  let l := Controller.Resolved
             {| Controller.models := ["claude-sonnet"];
                Controller.accounts := Some [] |} in
  let w' := Controller.refresh_resume 1000 h l true None
              (Controller.run during (Controller.refresh_begin Controller.world0)) in
  Forall (fun e => is_settlement e = false) during /\
  snapshot (Controller.state w') = (None, None, None) /\
  Controller.errorBannerHidden (Controller.page w') = false /\
  Controller.errorMessage (Controller.page w') =
    "Failed to connect: Health check failed: 500".
Proof.
  intros during h l w'.
  assert (Hduring : Forall (fun e => is_settlement e = false) during)
    by (repeat constructor).
  split; [exact Hduring |].
  pose proof (refresh_all_or_nothing Controller.world0 during 1000 h l true None
                Hduring) as H.
  destruct H as (_ & Hsnapshot & Hshown & Hmessage).
  split; [exact Hsnapshot |]. split; [exact Hshown | exact Hmessage].
Defined.

Lemma Render_error_hidden (w : Controller.World) :
  Controller.errorBannerHidden (Controller.page w) = true ->
  Controller.Render_error None w = w.
Proof.
  destruct w as [s [text class message hidden loading disabled] n f t].
  simpl. intros ->. reflexivity.
Qed.

Lemma trigger_while_loading (w : Controller.World) (e : Controller.Event) :
  single_flight w ->
  Controller.isLoading (Controller.state w) = true ->
  is_trigger e = true ->
  Controller.step w e = w.
Proof.
  intros [(_ & _ & Hhidden) | (Hidle & _)] Hloading He; [| congruence].
  destruct e; try discriminate He; simpl.
  - unfold Controller.refresh_begin. rewrite Hloading. reflexivity.
  - unfold Controller.refresh_begin. rewrite Hloading.
    destruct (Controller.refreshTimer _); reflexivity.
  - rewrite Render_error_hidden by exact Hhidden.
    unfold Controller.refresh_begin. rewrite Hloading. reflexivity.
Qed.

Lemma refresh_begin_single_flight (w : Controller.World) :
  single_flight w -> single_flight (Controller.refresh_begin w).
Proof.
  intros H. unfold Controller.refresh_begin.
  destruct (Controller.isLoading (Controller.state w)) eqn:Hloading; [exact H |].
  destruct H as [(Hl & _) | (_ & Hp)]; [congruence |].
  left. simpl. rewrite Hp. repeat split.
Qed.

Lemma step_single_flight (w : Controller.World) (e : Controller.Event) :
  single_flight w -> single_flight (Controller.step w e).
Proof.
  intros H. destruct e; simpl.
  - apply refresh_begin_single_flight. exact H.
  - destruct (Controller.refreshTimer _); [| exact H].
    apply refresh_begin_single_flight. exact H.
  - apply refresh_begin_single_flight.
    destruct H as [(Hl & Hp & _) | (Hl & Hp)]; [left | right]; simpl; repeat split;
      assumption.
  - destruct (Controller.pending w) eqn:Hp; [exact H |].
    destruct H as [(Hl & Hp' & _) | (_ & Hp')]; [| congruence].
    right. unfold Controller.refresh_resume. simpl. split; [reflexivity |].
    destruct (Controller.Promise_all h l healthFirst) as [[hv lv] | message];
      [destruct renderThrows |]; simpl; rewrite Hp'; reflexivity.
  - exact H.
  - exact H.
  - unfold Controller.toggleAccount, single_flight in *. simpl.
    case_bool_decide; exact H.
  - unfold Controller.toggleAutoRefresh. destruct checked; exact H.
  - unfold Controller.changeRefreshInterval. simpl.
    destruct (Controller.autoRefresh _); exact H.
Qed.

Lemma booted_single_flight : single_flight booted.
Proof. left. repeat split. Qed.

Lemma run_single_flight (events : list Controller.Event) (w : Controller.World) :
  single_flight w -> single_flight (Controller.run events w).
Proof.
  unfold Controller.run. revert w.
  induction events as [| e events IH]; intros w H; [exact H |].
  simpl. apply IH. apply step_single_flight. exact H.
Qed.

(** C5. In every state that the application reaches from its start, at most
    one call of [refresh] is in flight, and [isLoading] is set exactly while
    one is; while it is set, any burst of refresh triggers (manual, timer or
    retry) leaves the whole application as it is: no request is sent and no
    second refresh starts. *)
Theorem at_most_one_refresh_in_flight
    (events burst : list Controller.Event) :
  let w := Controller.run events booted in
  (Controller.pending w <= 1)%nat /\
  (Controller.isLoading (Controller.state w) = true <-> Controller.pending w = 1%nat) /\
  (Controller.isLoading (Controller.state w) = true ->
   Forall (fun e => is_trigger e = true) burst ->
   Controller.run burst w = w /\
   Controller.fetchPairs (Controller.run burst w) = Controller.fetchPairs w /\
   Controller.pending (Controller.run burst w) = 1%nat).
Proof.
  intros w.
  assert (Hw : single_flight w) by (apply run_single_flight, booted_single_flight).
  split; [| split].
  - destruct Hw as [(_ & -> & _) | (_ & ->)]; lia.
  - destruct Hw as [(-> & -> & _) | (-> & ->)]; split; congruence.
  - intros Hloading Hburst.
    assert (Hrun : Controller.run burst w = w).
    { unfold Controller.run. induction Hburst as [| e burst He _ IH]; [reflexivity |].
      simpl. rewrite (trigger_while_loading w e Hw Hloading He). exact IH. }
    rewrite Hrun. repeat split.
    destruct Hw as [(_ & -> & _) | (Hidle & _)]; congruence.
Qed.

Lemma at_most_one_refresh_in_flight_witness :
  let burst := [Controller.ManualRefresh; Controller.TimerRefresh;
                Controller.RetryAfterError; Controller.ManualRefresh] in
  let w := Controller.run [Controller.FilterByModel "claude"] booted in
  Controller.isLoading (Controller.state w) = true /\
  Forall (fun e => is_trigger e = true) burst /\
  Controller.run burst w = w /\
  Controller.fetchPairs (Controller.run burst w) = 1%nat.
Proof.
  intros burst w.
  assert (Hloading : Controller.isLoading (Controller.state w) = true) by reflexivity.
  assert (Hburst : Forall (fun e => is_trigger e = true) burst)
    by (repeat constructor).
  destruct (at_most_one_refresh_in_flight [Controller.FilterByModel "claude"] burst)
    as (_ & _ & Hnoop).
  destruct (Hnoop Hloading Hburst) as (Hrun & Hpairs & _).
  split; [exact Hloading |]. split; [exact Hburst |]. split; [exact Hrun |].
  exact (eq_trans Hpairs eq_refl).
Defined.

(** C8. A refresh, whether its requests succeed or fail, writes the
    snapshot fields ([health], [accountLimits], [lastUpdated]) and the
    loading flag of the state and nothing else: the set of expanded accounts,
    the family filter and the search query are as they were, before the
    requests and after them. *)
Theorem refresh_keeps_view_state
    (w : Controller.World) (now : Z) (h : Controller.Settled Controller.Health)
    (l : Controller.Settled Controller.AccountLimits)
    (healthFirst : bool) (renderThrows : option string) :
  let begun := Controller.state (Controller.refresh_begin w) in
  let ended := Controller.state
                 (Controller.refresh_resume now h l healthFirst renderThrows w) in
  let whole := Controller.state
                 (Controller.refresh_resume now h l healthFirst renderThrows
                    (Controller.refresh_begin w)) in
  same_view (Controller.state w) begun /\
  same_view (Controller.state w) ended /\
  same_view (Controller.state w) whole /\
  Controller.expandedAccounts whole = Controller.expandedAccounts (Controller.state w) /\
  Controller.filter whole = Controller.filter (Controller.state w) /\
  Controller.searchQuery whole = Controller.searchQuery (Controller.state w).
Proof.
  intros begun ended whole. subst begun ended whole.
  unfold same_view, Controller.refresh_resume, Controller.refresh_begin.
  destruct w as [[hl al lu ar ri rt ct st fl sq ea loading] p n f t].
  simpl Controller.isLoading.
  destruct loading;
    destruct (Controller.Promise_all h l healthFirst) as [[hv lv] | message];
    destruct renderThrows; simpl; repeat split.
Qed.

(** * Part IV: further properties of the code *)

(** ** Model families and the family filter *)

Lemma prefix_occurs (needle hay : string) :
  String.prefix needle hay = true <-> exists after, hay = needle +:+ after.
Proof.
  revert hay. induction needle as [| c needle IH]; intros hay.
  - split; [intros _; exists hay; reflexivity | intros _; destruct hay; reflexivity].
  - destruct hay as [| c' hay]; simpl.
    + split; [discriminate | intros (after & H); discriminate H].
    + destruct (ascii_dec c c') as [<- | Hne].
      * rewrite IH. split; intros (after & H); exists after.
        -- rewrite H. reflexivity.
        -- injection H as H. exact H.
      * split; [discriminate | intros (after & H)].
        injection H as H _. congruence.
Qed.

Lemma includes_occurs (needle hay : string) :
  Utils.includes needle hay = true <-> occurs_in needle hay.
Proof.
  unfold occurs_in. induction hay as [| c hay IH].
  - change (Utils.includes needle "") with (String.prefix needle "" || false).
    rewrite orb_false_r, prefix_occurs. split.
    + intros (after & H). exists "", after. exact H.
    + intros (before & after & H). destruct before; [exists after; exact H |].
      discriminate H.
  - change (Utils.includes needle (String c hay))
      with (String.prefix needle (String c hay) || Utils.includes needle hay).
    rewrite orb_true_iff, prefix_occurs, IH. split.
    + intros [(after & H) | (before & after & H)].
      * exists "", after. exact H.
      * exists (String c before), after. rewrite H. reflexivity.
    + intros (before & after & H). destruct before as [| c' before].
      * left. exists after. exact H.
      * right. injection H as _ H. exists before, after. exact H.
Qed.

(** X1. A model id is in the claude family exactly when "claude" occurs in
    it, in the gemini family exactly when "gemini" occurs in it and "claude"
    does not, and unknown otherwise: an id that holds both names is claude. *)
Theorem getModelFamily_by_substring (modelId : string) :
  (Utils.getModelFamily modelId = Utils.claude <-> occurs_in "claude" modelId) /\
  (Utils.getModelFamily modelId = Utils.gemini <->
     occurs_in "gemini" modelId /\ ~ occurs_in "claude" modelId) /\
  (Utils.getModelFamily modelId = Utils.unknown <->
     ~ occurs_in "claude" modelId /\ ~ occurs_in "gemini" modelId).
Proof.
  rewrite <- !includes_occurs. unfold Utils.getModelFamily.
  destruct (String.eqb_spec modelId "") as [-> | Hne].
  - repeat split; try discriminate; try (intros H; vm_compute in H; intuition discriminate).
    all: intros _; vm_compute; try discriminate; reflexivity.
  - destruct (Utils.includes "claude" modelId), (Utils.includes "gemini" modelId);
      repeat split; try discriminate; try reflexivity; try tauto;
      try (intros [H1 H2]; try discriminate; exfalso; auto);
      try (intros H; discriminate H).
Qed.

Lemma filterModels_In (models : list string) (filter m : string) :
  In m (Utils.filterModels models filter) <->
  In m models /\
  (filter = "all" \/ Utils.family_name (Utils.getModelFamily m) = filter).
Proof.
  unfold Utils.filterModels.
  destruct (String.eqb_spec filter "all") as [-> | Hne].
  - tauto.
  - rewrite List.filter_In, String.eqb_eq. tauto.
Qed.

(** X2. [filterModels] keeps the models in their order and drops the others:
    a model is shown exactly when it is in the list and the filter is 'all' or
    names its family; so a filter that names no family ('all', 'claude',
    'gemini', 'unknown') shows nothing. *)
Theorem filterModels_shows (models : list string) (filter : string) :
  sublist (Utils.filterModels models filter) models /\
  (forall m, In m (Utils.filterModels models filter) <->
             In m models /\
             (filter = "all" \/ Utils.family_name (Utils.getModelFamily m) = filter)) /\
  (filter <> "all" -> filter <> "claude" -> filter <> "gemini" ->
   filter <> "unknown" -> Utils.filterModels models filter = []).
Proof.
  split; [| split].
  - unfold Utils.filterModels. destruct (String.eqb filter "all"); [reflexivity |].
    induction models as [| m models IH]; simpl; [constructor |].
    destruct (String.eqb _ filter); [apply sublist_skip | apply sublist_cons];
      exact IH.
  - intros m. apply filterModels_In.
  - intros Hall Hc Hg Hu.
    destruct (Utils.filterModels models filter) as [| m rest] eqn:E; [reflexivity |].
    assert (Hin : In m (Utils.filterModels models filter)) by (rewrite E; left; reflexivity).
    apply filterModels_In in Hin as (_ & [H | H]); [contradiction |].
    destruct (Utils.getModelFamily m); simpl in H; congruence.
Qed.

Lemma filterModels_shows_witness :
  Utils.filterModels ["claude-sonnet"; "gemini-pro"; "gpt-4"] "openai" = [].
Proof.
  apply (filterModels_shows ["claude-sonnet"; "gemini-pro"; "gpt-4"] "openai");
    discriminate.
Defined.

(** X3. Applying the same filter twice shows what applying it once shows, and
    two filters can be applied in either order. *)
Theorem filterModels_idempotent_commutes (models : list string) (f g : string) :
  Utils.filterModels (Utils.filterModels models f) f = Utils.filterModels models f /\
  Utils.filterModels (Utils.filterModels models f) g =
  Utils.filterModels (Utils.filterModels models g) f.
Proof.
  assert (Hff : forall (p : string -> bool) l,
            List.filter p (List.filter p l) = List.filter p l).
  { intros p l. induction l as [| x l IH]; simpl; [reflexivity |].
    destruct (p x) eqn:E; simpl; rewrite ?E, IH; reflexivity. }
  assert (Hfg : forall (p q : string -> bool) l,
            List.filter q (List.filter p l) = List.filter p (List.filter q l)).
  { intros p q l. induction l as [| x l IH]; simpl; [reflexivity |].
    destruct (p x) eqn:Ep, (q x) eqn:Eq; simpl; rewrite ?Ep, ?Eq, IH; reflexivity. }
  unfold Utils.filterModels. split.
  - destruct (String.eqb f "all"); [reflexivity | apply Hff].
  - destruct (String.eqb f "all"), (String.eqb g "all"); try reflexivity. apply Hfg.
Qed.

(** ** Quota levels, durations and timestamps *)

(** X4. The dashboard level never gets worse as the fraction grows: from
    'exhausted' (a fraction of 0 or less) through 'low' and 'medium' (from
    0.25) to 'high' (from 0.75). *)
Theorem getQuotaLevel_monotone (f g : Q) :
  (f <= g)%Q ->
  (level_rank (Utils.getQuotaLevel (Some f)) <=
   level_rank (Utils.getQuotaLevel (Some g)))%nat.
Proof.
  intros Hfg. unfold Utils.getQuotaLevel.
  destruct (Qle_bool (75 # 100) f) eqn:F1, (Qle_bool (75 # 100) g) eqn:G1.
  - vm_compute. lia.
  - apply Qle_bool_iff in F1.
    assert (C : Qle_bool (75 # 100) g = true) by (apply Qle_bool_iff; eapply Qle_trans; eassumption).
    congruence.
  - destruct (Qle_bool (25 # 100) f), (negb (Qle_bool f 0)); vm_compute; lia.
  - destruct (Qle_bool (25 # 100) f) eqn:F2, (Qle_bool (25 # 100) g) eqn:G2.
    + vm_compute; lia.
    + apply Qle_bool_iff in F2.
      assert (C : Qle_bool (25 # 100) g = true) by (apply Qle_bool_iff; eapply Qle_trans; eassumption).
      congruence.
    + destruct (negb (Qle_bool f 0)); vm_compute; lia.
    + destruct (Qle_bool f 0) eqn:F3, (Qle_bool g 0) eqn:G3; simpl negb;
        try (vm_compute; lia).
      apply Qle_bool_iff in G3.
      assert (C : Qle_bool f 0 = true) by (apply Qle_bool_iff; eapply Qle_trans; eassumption).
      congruence.
Qed.

Lemma getQuotaLevel_monotone_witness :
  ((1 # 10) <= (8 # 10))%Q /\
  (level_rank (Utils.getQuotaLevel (Some (1 # 10))) <=
   level_rank (Utils.getQuotaLevel (Some (8 # 10))))%nat.
Proof.
  assert (H : ((1 # 10) <= (8 # 10))%Q) by (vm_compute; discriminate).
  split; [exact H | exact (getQuotaLevel_monotone (1 # 10) (8 # 10) H)].
Defined.

Lemma append_unit_not_now (s unit : string) :
  unit <> "w" -> String.length unit = 1%nat -> s +:+ unit <> "now".
Proof.
  intros Hunit Hlen.
  destruct unit as [| u [| u' unit]]; try discriminate Hlen.
  destruct s as [| a [| b [| c s]]]; simpl; try discriminate.
  - intros H. injection H as _ _ H. apply Hunit. rewrite H. reflexivity.
  - destruct s; discriminate.
Qed.



(** X6. From one second on, a duration is shown as the whole seconds it
    holds: the milliseconds beyond them change nothing. *)
Theorem formatDuration_whole_seconds (ms : Z) :
  1000 <= ms ->
  Utils.formatDuration ms = Utils.formatDuration (1000 * (ms / 1000)).
Proof.
  intros H. unfold Utils.formatDuration, Utils.floor_div.
  assert (Hs : 1 <= ms / 1000) by (apply Z.div_le_lower_bound; lia).
  destruct (Z.leb_spec ms 0); [lia |].
  destruct (Z.leb_spec (1000 * (ms / 1000)) 0); [lia |].
  replace (1000 * (ms / 1000) / 1000) with (ms / 1000)
    by (rewrite Z.mul_comm, Z.div_mul by lia; reflexivity).
  reflexivity.
Qed.

Lemma formatDuration_whole_seconds_witness :
  1000 <= 90999 /\
  Utils.formatDuration 90999 = Utils.formatDuration (1000 * (90999 / 1000)).
Proof.
  assert (H : 1000 <= 90999) by lia.
  split; [exact H | exact (formatDuration_whole_seconds 90999 H)].
Defined.

(** X7. A timestamp less than a minute old, or ahead of the clock, is 'just
    now'; from one minute to one hour it is a number of minutes from 1 to 59,
    from one hour to one day a number of hours from 1 to 23; only from one
    day on is the date itself shown; a missing timestamp is 'never'. *)
Theorem formatTimestamp_ranges (now date : Z) (toLocaleDateString : Z -> string) :
  let shown := Utils.formatTimestamp now toLocaleDateString (Some date) in
  let age := now - date in
  Utils.formatTimestamp now toLocaleDateString None = "never" /\
  (age < 60000 -> shown = "just now") /\
  (60000 <= age < 3600000 ->
   exists minutes, 1 <= minutes <= 59 /\ shown = pretty minutes +:+ "m ago") /\
  (3600000 <= age < 86400000 ->
   exists hours, 1 <= hours <= 23 /\ shown = pretty hours +:+ "h ago") /\
  (86400000 <= age -> shown = toLocaleDateString date).
Proof.
  intros shown age. subst shown age. unfold Utils.formatTimestamp, Utils.floor_div, Utils.show.
  split; [reflexivity |].
  split; [| split; [| split]]; intros H.
  - destruct (Z.ltb_spec (now - date) 60000); [reflexivity | lia].
  - destruct (Z.ltb_spec (now - date) 60000); [lia |].
    destruct (Z.ltb_spec (now - date) 3600000); [| lia].
    exists ((now - date) / 60000). split; [| reflexivity]. split.
    + apply Z.div_le_lower_bound; lia.
    + assert ((now - date) / 60000 < 60) by (apply Z.div_lt_upper_bound; lia). lia.
  - destruct (Z.ltb_spec (now - date) 60000); [lia |].
    destruct (Z.ltb_spec (now - date) 3600000); [lia |].
    destruct (Z.ltb_spec (now - date) 86400000); [| lia].
    exists ((now - date) / 3600000). split; [| reflexivity]. split.
    + apply Z.div_le_lower_bound; lia.
    + assert ((now - date) / 3600000 < 24) by (apply Z.div_lt_upper_bound; lia). lia.
  - destruct (Z.ltb_spec (now - date) 60000); [lia |].
    destruct (Z.ltb_spec (now - date) 3600000); [lia |].
    destruct (Z.ltb_spec (now - date) 86400000); [lia | reflexivity].
Qed.

Lemma formatTimestamp_ranges_witness :
  60000 <= 1000000 - 100000 < 3600000 /\
  exists minutes, 1 <= minutes <= 59 /\
    Utils.formatTimestamp 1000000 (fun _ => "1/1/1970") (Some 100000) =
    pretty minutes +:+ "m ago".
Proof.
  assert (H : 60000 <= 1000000 - 100000 < 3600000) by lia.
  split; [exact H |].
  destruct (formatTimestamp_ranges 1000000 100000 (fun _ => "1/1/1970"))
    as (_ & _ & Hminutes & _).
  exact (Hminutes H).
Defined.

(** ** Masked e-mail addresses, continued *)

(** X8. Of a local part of more than four characters only the first four
    are shown: two addresses with the same domain whose local parts start
    with the same four characters are masked alike. The domain is always
    shown in full. *)
Theorem maskEmail_hides_beyond_four (local1 local2 domain : string) :
  occurrences "@" local1 = 0%nat -> occurrences "@" local2 = 0%nat ->
  occurrences "@" domain = 0%nat ->
  (4 < String.length local1)%nat -> (4 < String.length local2)%nat ->
  substring 0 4 local1 = substring 0 4 local2 ->
  Utils.maskEmail (Some (local1 +:+ "@" +:+ domain)) =
  Utils.maskEmail (Some (local2 +:+ "@" +:+ domain)) /\
  Utils.maskEmail (Some (local1 +:+ "@" +:+ domain)) =
  substring 0 4 local1 +:+ "***@" +:+ domain.
Proof.
  intros H1 H2 Hd L1 L2 Hsame.
  rewrite !maskEmail_wellformed by assumption.
  apply Nat.ltb_lt in L1, L2. rewrite L1, L2, Hsame, !append_assoc.
  split; reflexivity.
Qed.

Lemma maskEmail_hides_beyond_four_witness :
  Utils.maskEmail (Some ("alice.smith" +:+ "@" +:+ "example.com")) =
  Utils.maskEmail (Some ("alicia" +:+ "@" +:+ "example.com")).
Proof.
  apply (maskEmail_hides_beyond_four "alice.smith" "alicia" "example.com");
    try reflexivity; simpl; lia.
Defined.

(** ** The terminal report, continued *)

Lemma keys_modify {V : Type} k (f : V -> V) (d : list (string * V)) :
  Dict.keys (Dict.modify k f d) = Dict.keys d.
Proof.
  unfold Dict.keys. induction d as [| [k' v] d IH]; simpl; [reflexivity |].
  destruct (String.eqb k k'); simpl; [reflexivity | rewrite IH; reflexivity].
Qed.

Lemma NoDup_snoc {A : Type} (l : list A) (x : A) :
  NoDup l -> ~ In x l -> NoDup (l ++ [x]).
Proof.
  intros Hl Hx. apply NoDup_app. split; [exact Hl |]. split.
  - intros y Hy Hin. apply list_elem_of_In in Hy.
    apply list_elem_of_In in Hin. simpl in Hin. destruct Hin as [-> | []].
    exact (Hx Hy).
  - apply NoDup_cons. split; [apply not_elem_of_nil | constructor].
Qed.

Lemma keys_ensure_NoDup {V : Type} k (v0 : V) (d : list (string * V)) :
  NoDup (Dict.keys d) -> NoDup (Dict.keys (Dict.ensure k v0 d)).
Proof.
  intros H. unfold Dict.ensure. destruct (Dict.get k d) eqn:E; [exact H |].
  unfold Dict.keys in *. rewrite map_app. simpl. apply NoDup_snoc; [exact H |].
  apply get_None_not_key. exact E.
Qed.

Lemma modelTotals_keys_NoDup accounts : NoDup (Dict.keys (Report.modelTotals accounts)).
Proof.
  unfold Report.modelTotals.
  assert (G : forall mt, NoDup (Dict.keys mt) ->
    NoDup (Dict.keys (fold_left Report.checkAccount accounts mt))).
  { induction accounts as [| a accounts IH]; intros mt Hmt; [exact Hmt |].
    simpl. apply IH. unfold Report.checkAccount.
    destruct (Report.fetch a) as [quotas | msg]; [| exact Hmt].
    revert mt Hmt. induction quotas as [| [modelId info] quotas IHq]; intros mt Hmt;
      [exact Hmt |].
    simpl. apply IHq. destruct (remainingFraction info); [| exact Hmt].
    rewrite keys_modify. apply keys_ensure_NoDup. exact Hmt. }
  apply G. constructor.
Qed.

Lemma modelAverages_keys accounts :
  Dict.keys (Report.modelAverages accounts) = Dict.keys (Report.modelTotals accounts).
Proof.
  unfold Report.modelAverages, Dict.keys. rewrite map_map.
  apply map_ext. intros [k t]. reflexivity.
Qed.

Lemma modelAverages_keys_iff (accounts : list Report.Account) (m : string) :
  In m (Dict.keys (Report.modelAverages accounts)) <-> contributions m accounts <> [].
Proof.
  rewrite modelAverages_keys.
  pose proof (modelTotals_get m accounts) as Hget. cbv zeta in Hget.
  pose proof (get_None_not_key m (Report.modelTotals accounts)) as Hnone.
  destruct (contributions m accounts) as [| v values].
  - split; [intros Hin | congruence]. exfalso. apply Hnone; assumption.
  - split; [discriminate | intros _].
    destruct (in_dec string_dec m (Dict.keys (Report.modelTotals accounts)))
      as [Hin | Hnot]; [exact Hin |].
    apply Hnone in Hnot. congruence.
Qed.

(** X9. The table of averages lists a model exactly when some account holds
    a non-null fraction for it, and lists it once. *)
Theorem modelAverages_lists_each_model_once (accounts : list Report.Account) :
  NoDup (Dict.keys (Report.modelAverages accounts)) /\
  forall m, In m (Dict.keys (Report.modelAverages accounts)) <->
            contributions m accounts <> [].
Proof.
  split; [| apply modelAverages_keys_iff].
  rewrite modelAverages_keys. apply modelTotals_keys_NoDup.
Qed.

Lemma avgValues_all (totals : list (string * Report.Totals)) :
  Forall counted totals ->
  Report.avgValues
    (map (fun '(modelId, t) => (modelId, Report.average t)) totals) =
  map (fun kv => (Report.sum (snd kv) / inject_Z (Report.count (snd kv)))%Q) totals.
Proof.
  unfold Report.avgValues.
  induction 1 as [| [k t] totals Ht _ IH]; [reflexivity |].
  simpl. rewrite IH. unfold Report.average. unfold counted in Ht. simpl in Ht.
  replace (Report.count t >? 0) with true by (symmetry; apply Z.gtb_lt; lia).
  reflexivity.
Qed.

(** X10. No model average is null, so the overall average is the mean of
    all the model averages; it is null exactly when no account holds a
    non-null fraction at all. *)
Theorem overallAverage_mean_of_averages (accounts : list Report.Account) :
  let averages := Report.modelAverages accounts in
  length (Report.avgValues averages) = length averages /\
  Report.overallAverage averages =
    match averages with
    | [] => None
    | _ => Some (mean (Report.avgValues averages))
    end /\
  (Report.overallAverage averages = None <->
   forall m, contributions m accounts = []).
Proof.
  intros averages.
  assert (Hlen : length (Report.avgValues averages) = length averages).
  { subst averages. unfold Report.modelAverages.
    rewrite avgValues_all by apply modelTotals_counted.
    rewrite !length_map. reflexivity. }
  assert (Hov : Report.overallAverage averages =
                match averages with
                | [] => None
                | _ => Some (mean (Report.avgValues averages))
                end).
  { unfold Report.overallAverage, mean.
    destruct averages as [| kv rest]; [reflexivity |].
    destruct (Report.avgValues (kv :: rest)); [discriminate Hlen | reflexivity]. }
  split; [exact Hlen |]. split; [exact Hov |].
  rewrite Hov.
  pose proof (modelAverages_keys_iff accounts) as Hkeys.
  fold averages in Hkeys.
  destruct averages as [| [k avg] rest].
  - split; [intros _ m | reflexivity].
    destruct (contributions m accounts) eqn:E; [reflexivity |].
    exfalso. apply (proj2 (Hkeys m)). congruence.
  - split; [discriminate | intros Hall]. exfalso.
    apply (proj1 (Hkeys k)); [left; reflexivity | apply Hall].
Qed.

(** ** Fractions in range *)

Lemma inject_Z_pos (z : Z) : 0 < z -> (0 < inject_Z z)%Q.
Proof. intros H. change 0%Q with (inject_Z 0). rewrite <- Zlt_Qlt. exact H. Qed.

Lemma sum_in_range (values : list Q) :
  Forall in_unit values ->
  forall (total : Q) (n : Z),
    (0 <= total)%Q -> (total <= inject_Z n)%Q ->
    (0 <= fold_left Qplus values total)%Q /\
    (fold_left Qplus values total <= inject_Z (n + Z.of_nat (length values)))%Q.
Proof.
  induction 1 as [| v values (Hv0 & Hv1) _ IH]; intros total n H0 Hn.
  - simpl. rewrite Z.add_0_r. split; assumption.
  - simpl fold_left.
    destruct (IH (total + v)%Q (n + 1)) as (Hlow & Hhigh).
    + lra.
    + rewrite inject_Z_plus. change (inject_Z 1) with 1%Q. lra.
    + split; [exact Hlow |].
      replace (n + Z.of_nat (length (v :: values)))
        with (n + 1 + Z.of_nat (length values)) by (simpl length; lia).
      exact Hhigh.
Qed.

Lemma ratio_in_unit (total : Q) (n : Z) :
  0 < n -> (0 <= total)%Q -> (total <= inject_Z n)%Q ->
  in_unit (total / inject_Z n).
Proof.
  intros Hn H0 H1. pose proof (inject_Z_pos n Hn) as Hpos. split.
  - apply Qle_shift_div_l; [exact Hpos |]. set (c := inject_Z n) in *. lra.
  - apply Qle_shift_div_r; [exact Hpos |]. set (c := inject_Z n) in *. lra.
Qed.

Lemma mean_in_unit (values : list Q) :
  values <> [] -> Forall in_unit values -> in_unit (mean values).
Proof.
  intros Hne Hall. unfold mean.
  destruct (sum_in_range values Hall 0%Q 0) as (Hlow & Hhigh);
    [lra | change (inject_Z 0) with 0%Q; lra |].
  apply ratio_in_unit; [| exact Hlow | exact Hhigh].
  destruct values; [congruence | simpl length; lia].
Qed.

Lemma percent_in_range (v : Q) :
  in_unit v -> 0 <= Utils.Math_round (v * 100) <= 100.
Proof.
  intros (H0 & H1). unfold Utils.Math_round. split.
  - apply floor_at_least. change (inject_Z 0) with 0%Q. lra.
  - apply Z.le_trans with (Qfloor (201 # 2));
      [apply Qfloor_resp_le; lra | vm_compute; discriminate].
Qed.

Lemma offers_in_unit m quotas :
  quotas_in_unit quotas -> Forall in_unit (offers m quotas).
Proof.
  unfold quotas_in_unit, offers.
  induction 1 as [| [k info] quotas Hinfo _ IH]; simpl; [constructor |].
  destruct (String.eqb k m); [| exact IH].
  simpl in Hinfo. destruct (remainingFraction info); simpl; [| exact IH].
  constructor; assumption.
Qed.

Lemma contributions_in_unit m (accounts : list Report.Account) :
  Forall (fun a => quotas_in_unit (quotas_of a)) accounts ->
  Forall in_unit (contributions m accounts).
Proof.
  unfold contributions.
  induction 1 as [| a accounts Ha _ IH]; simpl; [constructor |].
  apply Forall_app. split; [apply offers_in_unit; exact Ha | exact IH].
Qed.

Lemma modelAverages_get (accounts : list Report.Account) (m : string) :
  Dict.get m (Report.modelAverages accounts) =
  match contributions m accounts with
  | [] => None
  | _ => Some (Some (mean (contributions m accounts)))
  end.
Proof.
  unfold Report.modelAverages. rewrite get_averages, modelTotals_get.
  destruct (contributions m accounts) as [| v values]; [reflexivity |].
  simpl option_map. unfold Report.average. simpl Report.count. simpl Report.sum.
  replace (Z.of_nat (length (v :: values)) >? 0) with true
    by (symmetry; apply Z.gtb_lt; simpl length; lia).
  reflexivity.
Qed.

Lemma modelAverages_entries_in_unit (accounts : list Report.Account) :
  Forall (fun a => quotas_in_unit (quotas_of a)) accounts ->
  Forall (fun kv => null_or_in_unit (snd kv)) (Report.modelAverages accounts).
Proof.
  intros Hall. apply List.Forall_forall. intros [k avg] Hin. simpl.
  pose proof (get_In_NoDup _ k avg
                ltac:(rewrite modelAverages_keys; apply modelTotals_keys_NoDup) Hin)
    as Hget.
  rewrite modelAverages_get in Hget.
  pose proof (contributions_in_unit k accounts Hall) as Hc.
  destruct (contributions k accounts) as [| v values] eqn:E; [discriminate |].
  injection Hget as <-. apply mean_in_unit; [discriminate | exact Hc].
Qed.

(** X11. When every fraction fetched is null or between 0 and 1, every model
    average lies between 0 and 1, so does the overall average, and every
    percentage the report derives from them lies between 0 and 100. *)
Theorem averages_in_unit (accounts : list Report.Account) :
  Forall (fun a => quotas_in_unit (quotas_of a)) accounts ->
  let averages := Report.modelAverages accounts in
  Forall (fun kv => null_or_in_unit (snd kv)) averages /\
  null_or_in_unit (Report.overallAverage averages) /\
  (forall m v, Dict.get m averages = Some (Some v) ->
               0 <= Utils.Math_round (v * 100) <= 100) /\
  (forall v, Report.overallAverage averages = Some v ->
             0 <= Utils.Math_round (v * 100) <= 100).
Proof.
  intros Hall averages.
  pose proof (modelAverages_entries_in_unit accounts Hall) as Hentries.
  fold averages in Hentries.
  assert (Hvalues : Forall in_unit (Report.avgValues averages)).
  { unfold Report.avgValues. clear -Hentries.
    induction Hentries as [| [k [v |]] rest Hv _ IH]; simpl; [constructor | | exact IH].
    constructor; [exact Hv | exact IH]. }
  assert (Hoverall : null_or_in_unit (Report.overallAverage averages)).
  { unfold Report.overallAverage.
    destruct (Report.avgValues averages) as [| v values] eqn:E; [exact I |].
    apply (mean_in_unit (v :: values)); [discriminate | exact Hvalues]. }
  split; [exact Hentries |]. split; [exact Hoverall |]. split.
  - intros m v Hget. apply percent_in_range.
    subst averages. rewrite modelAverages_get in Hget.
    pose proof (contributions_in_unit m accounts Hall) as Hc.
    destruct (contributions m accounts) as [| c cs] eqn:E; [discriminate |].
    injection Hget as <-. apply mean_in_unit; [discriminate | exact Hc].
  - intros v Hv. rewrite Hv in Hoverall. apply percent_in_range. exact Hoverall.
Qed.

Lemma averages_in_unit_witness :
  let accounts :=
    [ {| Report.email := "a@example.com";
         Report.fetch := Report.Fetched
           [("m1", {| remainingFraction := Some (8 # 10); resetTime := None |})] |};
      {| Report.email := "b@example.com";
         Report.fetch := Report.Fetched
           [("m1", {| remainingFraction := Some (4 # 10); resetTime := None |});
            ("m2", {| remainingFraction := None; resetTime := None |})] |};
      {| Report.email := "c@example.com"; Report.fetch := Report.Threw "boom" |} ] in
  Forall (fun a => quotas_in_unit (quotas_of a)) accounts /\
  null_or_in_unit (Report.overallAverage (Report.modelAverages accounts)).
Proof.
  intros accounts.
  assert (H : Forall (fun a => quotas_in_unit (quotas_of a)) accounts).
  { repeat constructor; simpl; discriminate. }
  split; [exact H |].
  exact (proj1 (proj2 (averages_in_unit accounts H))).
Defined.

(** X12. The overall-average line paints its percentage exactly as
    [formatPercent] paints a fraction: the same text in the same colour. *)
Theorem overallLine_as_formatPercent (overallAverage : Q) :
  Report.overallLine (Some overallAverage) =
  Some ("  " +:+ Report.ESC +:+ "[1mOverall Average:" +:+ Report.ESC +:+ "[0m "
        +:+ Report.formatPercent (Some overallAverage)
        +:+ String "010"%char EmptyString).
Proof.
  unfold Report.overallLine, Report.formatPercent, Report.paint.
  set (pct := Utils.Math_round (overallAverage * 100)).
  rewrite !Z.geb_leb.
  destruct (Z.ltb_spec pct 50), (Z.leb_spec 50 pct); try lia;
    destruct (Z.ltb_spec pct 20), (Z.leb_spec 20 pct); try lia;
    cbv zeta; rewrite ?append_assoc; reflexivity.
Qed.

(** ** The family gauges, continued *)

Lemma values_in_unit family entries :
  quotas_in_unit entries -> Forall in_unit (values_in family entries).
Proof.
  unfold quotas_in_unit, values_in.
  induction 1 as [| [k q] entries Hq _ IH]; simpl; [constructor |].
  destruct (family_eqb _ family); [| exact IH]. simpl. constructor; [| exact IH].
  unfold null_as_zero. simpl in Hq.
  destruct (remainingFraction q); [exact Hq | split; discriminate].
Qed.

Lemma family_gauge_in_unit family (accounts : list Render.Account) :
  Forall (fun acc => quotas_in_unit (quota_entries acc)) accounts ->
  in_unit (family_gauge family accounts).
Proof.
  intros Hall. unfold family_gauge.
  destruct (contributing family accounts) as [| c cs] eqn:E;
    [split; discriminate |].
  apply mean_in_unit; [discriminate |]. rewrite <- E. clear E.
  unfold contributing. apply List.Forall_forall. intros v Hv.
  apply in_map_iff in Hv as (acc & <- & Hacc).
  apply List.filter_In in Hacc as (Hin & Hsome).
  unfold account_scalar. apply mean_in_unit.
  - destruct (family_values family acc); [discriminate | discriminate].
  - unfold family_values. destruct (Render.unusable acc); [constructor |].
    apply values_in_unit.
    exact (proj1 (List.Forall_forall _ _) Hall acc Hin).
Qed.

Lemma familyPercent_in_range (accounts : list string) (avgFraction : Q) :
  in_unit avgFraction ->
  Render.familyPercent accounts avgFraction = ("N/A", "0%") \/
  exists percent, 0 <= percent <= 100 /\
    Render.familyPercent accounts avgFraction =
      (pretty percent +:+ "%", pretty percent +:+ "%").
Proof.
  intros H. unfold Render.familyPercent.
  destruct (0 <? length accounts)%nat; [right | left; reflexivity].
  exists (Utils.Math_round (avgFraction * 100)).
  split; [apply percent_in_range; exact H | reflexivity].
Qed.

(** X13. In a snapshot whose accounts have distinct e-mail addresses and
    whose fractions are null or between 0 and 1, both family gauges lie
    between 0 and 1, so the panel writes 'N/A' with an empty fill, or a
    percentage between 0% and 100% as text and as fill width. *)
Theorem family_gauges_in_unit (now : Z) (accounts : list Render.Account) :
  NoDup (map Render.email accounts) ->
  Forall (fun acc => quotas_in_unit (quota_entries acc)) accounts ->
  let g := Render.aggregates now accounts in
  in_unit (Render.claudeAvgFraction g) /\
  in_unit (Render.geminiAvgFraction g) /\
  (forall shown,
     shown = Render.familyPercent (Render.claudeAccounts g) (Render.claudeAvgFraction g) \/
     shown = Render.familyPercent (Render.geminiAccounts g) (Render.geminiAvgFraction g) ->
     shown = ("N/A", "0%") \/
     exists percent, 0 <= percent <= 100 /\
       shown = (pretty percent +:+ "%", pretty percent +:+ "%")).
Proof.
  intros Hnodup Hall g.
  destruct (scan_gauge Utils.claude ltac:(discriminate) accounts Hnodup) as (Hc & _).
  destruct (scan_gauge Utils.gemini ltac:(discriminate) accounts Hnodup) as (Hg & _).
  assert (C : in_unit (Render.claudeAvgFraction g))
    by (subst g; unfold Render.aggregates; simpl Render.claudeAvgFraction;
        simpl perAccount in Hc; rewrite Hc; apply family_gauge_in_unit; exact Hall).
  assert (G : in_unit (Render.geminiAvgFraction g))
    by (subst g; unfold Render.aggregates; simpl Render.geminiAvgFraction;
        simpl perAccount in Hg; rewrite Hg; apply family_gauge_in_unit; exact Hall).
  split; [exact C |]. split; [exact G |].
  intros shown [-> | ->]; apply familyPercent_in_range; assumption.
Qed.

Lemma family_gauges_in_unit_witness :
  let accounts :=
    [ {| Render.email := "a@example.com"; Render.status := "ok";
         Render.limits := Some
           [("claude-sonnet", Some {| remainingFraction := Some (1 # 2)%Q;
                                      resetTime := None |});
            ("gemini-pro", Some {| remainingFraction := None;
                                   resetTime := Some 5000 |})] |};
      {| Render.email := "b@example.com"; Render.status := "rate-limited";
         Render.limits := Some
           [("claude-sonnet", Some {| remainingFraction := Some 1%Q;
                                      resetTime := None |})] |} ] in
  NoDup (map Render.email accounts) /\
  Forall (fun acc => quotas_in_unit (quota_entries acc)) accounts /\
  in_unit (Render.claudeAvgFraction (Render.aggregates 1000 accounts)).
Proof.
  intros accounts.
  assert (H : NoDup (map Render.email accounts)).
  { simpl. apply NoDup_cons. split.
    - intros Hin. apply list_elem_of_In in Hin. simpl in Hin.
      destruct Hin as [Hin | []]. discriminate Hin.
    - apply NoDup_cons. split; [apply not_elem_of_nil | constructor]. }
  assert (U : Forall (fun acc => quotas_in_unit (quota_entries acc)) accounts).
  { repeat constructor; simpl; discriminate. }
  split; [exact H |]. split; [exact U |].
  exact (proj1 (family_gauges_in_unit 1000 accounts H U)).
Defined.

(** ** The refresh controller, continued *)

Lemma reachable_ind (P : Controller.World -> Prop) :
  P booted ->
  (forall w e, P w -> P (Controller.step w e)) ->
  forall events, P (Controller.run events booted).
Proof.
  intros Hboot Hstep events. unfold Controller.run.
  generalize booted Hboot. induction events as [| e events IH]; intros w Hw;
    [exact Hw |].
  simpl. apply IH. apply Hstep. exact Hw.
Qed.

Ltac step_simpl :=
  simpl;
  unfold Controller.refresh_begin, Controller.refresh_resume,
    Controller.toggleAccount, Controller.toggleAutoRefresh,
    Controller.changeRefreshInterval, Controller.refresh_catch;
  simpl;
  repeat match goal with
         | |- context [bool_decide ?P] => destruct (bool_decide P); simpl
         | |- context [if ?b then _ else _] => destruct b eqn:?; simpl
         | |- context [match ?o with Some _ => _ | None => _ end] =>
             destruct o eqn:?; simpl
         | |- context [match ?n with O => _ | S _ => _ end] =>
             destruct n eqn:?; simpl
         | |- context [match ?r with
                       | Controller.Resolved _ => _
                       | Controller.Rejected _ => _
                       end] => destruct r as [[? ?] |] eqn:?; simpl
         end.

Ltac step_cases e := destruct e; step_simpl.


(** X15. In every state that the application reaches, the refresh button is
    disabled and marked as loading exactly while a refresh is loading, and
    the status badge then reads 'Loading...'. *)
Theorem indicators_follow_loading (events : list Controller.Event) :
  indicators_agree (Controller.run events booted).
Proof.
  apply (reachable_ind indicators_agree).
  - repeat split.
  - intros w e (Hd & Hl & Hs). unfold indicators_agree.
    step_cases e; repeat split; try assumption; try congruence;
      try (intros; congruence); auto.
Qed.

Lemma booted_timers_agree : timers_agree booted.
Proof.
  split; [split; [discriminate | reflexivity] |].
  exists 2. split; [reflexivity |]. split; [vm_compute; discriminate |].
  intros r Hreq. vm_compute in Hreq. injection Hreq as <-.
  split; [vm_compute; discriminate | lia].
Qed.

Lemma step_timers_agree (w : Controller.World) (e : Controller.Event) :
  timers_agree w -> timers_agree (Controller.step w e).
Proof.
  intros H. pose proof H as ((Hon & Hoff) & c & Hc & Hle & Hr).
  unfold timers_agree.
  step_cases e; try exact H;
    try (split; [split; [assumption || discriminate || (intros; congruence)
                        | assumption || reflexivity || (intros; congruence)] |];
         exists c; split; [assumption |]; split; [lia |];
         intros r Hreq;
         try (injection Hreq as <-; split; lia);
         try discriminate Hreq;
         try (destruct (Hr r Hreq); split; lia)).
Qed.

(** X16. In every state that the application reaches, the auto-refresh
    interval is armed exactly when auto-refresh is switched on, and the
    countdown interval stays armed: stopping or restarting auto-refresh
    never clears it. *)
Theorem timers_follow_switch (events : list Controller.Event) :
  timers_agree (Controller.run events booted).
Proof.
  apply (reachable_ind timers_agree);
    [exact booted_timers_agree | exact step_timers_agree].
Qed.

(** X17. When both requests succeed but a renderer throws on what they
    gave, the refresh does not roll back: the new snapshot stays stored, the
    badge reads 'Error', the banner shows the renderer's message, and the
    loading flag is cleared. *)
Theorem render_failure_keeps_new_snapshot
    (w : Controller.World) (now : Z) (hv : Controller.Health)
    (lv : Controller.AccountLimits) (healthFirst : bool) (message : string) :
  let w' := Controller.refresh_resume now (Controller.Resolved hv)
              (Controller.Resolved lv) healthFirst (Some message) w in
  snapshot (Controller.state w') = (Some hv, Some lv, Some now) /\
  Controller.serverStatusText (Controller.page w') = "Error" /\
  Controller.errorBannerHidden (Controller.page w') = false /\
  Controller.errorMessage (Controller.page w') = "Failed to connect: " +:+ message /\
  Controller.isLoading (Controller.state w') = false.
Proof. repeat split. Qed.

(** X18. A refresh that succeeds leaves no error on the page: from any
    state that the application reaches while loading, the settlement of both
    requests without a rendering failure ends with the banner hidden, the
    badge reading 'OK' with the latency, the button enabled and nothing in
    flight. *)
Theorem successful_refresh_clears_error
    (events : list Controller.Event) (now : Z) (hv : Controller.Health)
    (lv : Controller.AccountLimits) (healthFirst : bool) :
  let w := Controller.run events booted in
  Controller.isLoading (Controller.state w) = true ->
  let w' := Controller.step w
              (Controller.RequestsSettled now (Controller.Resolved hv)
                 (Controller.Resolved lv) healthFirst None) in
  Controller.errorBannerHidden (Controller.page w') = true /\
  Controller.serverStatusText (Controller.page w') =
    "OK (" +:+ pretty (Controller.latencyMs hv) +:+ "ms)" /\
  Controller.manualRefreshDisabled (Controller.page w') = false /\
  Controller.isLoading (Controller.state w') = false /\
  Controller.pending w' = 0%nat /\
  snapshot (Controller.state w') = (Some hv, Some lv, Some now).
Proof.
  intros w Hloading w'.
  assert (Hw : single_flight w) by (apply run_single_flight, booted_single_flight).
  destruct Hw as [(_ & Hp & Hhidden) | (Hidle & _)]; [| congruence].
  subst w'. simpl. rewrite Hp. simpl. rewrite Hp. repeat split. exact Hhidden.
Qed.

Lemma successful_refresh_clears_error_witness :
  let hv := {| Controller.latencyMs := 42; Controller.total := 1;
               Controller.available := 1; Controller.rateLimited := 0;
               Controller.invalid := 0 |} in
  let lv := {| Controller.models := []; Controller.accounts := Some [] |} in
  let failed := Controller.RequestsSettled 1000 (Controller.Rejected "Health check failed: 500")
                  (Controller.Resolved lv) true None in
  let w := Controller.run [failed; Controller.RetryAfterError] booted in
  Controller.isLoading (Controller.state w) = true /\
  Controller.errorBannerHidden
    (Controller.page
       (Controller.step w
          (Controller.RequestsSettled 2000 (Controller.Resolved hv)
             (Controller.Resolved lv) true None))) = true.
Proof.
  intros hv lv failed w.
  assert (H : Controller.isLoading (Controller.state w) = true) by reflexivity.
  split; [exact H |].
  exact (proj1 (successful_refresh_clears_error
                  [failed; Controller.RetryAfterError] 2000 hv lv true H)).
Defined.

(** X19. The view's own events (filter, search, expanding a card, the
    auto-refresh controls) send no request, start and end no refresh, and
    leave the snapshot alone. *)
Theorem view_events_never_fetch (w : Controller.World) (e : Controller.Event) :
  is_view_event e = true ->
  let w' := Controller.step w e in
  Controller.fetchPairs w' = Controller.fetchPairs w /\
  Controller.pending w' = Controller.pending w /\
  Controller.isLoading (Controller.state w') = Controller.isLoading (Controller.state w) /\
  snapshot (Controller.state w') = snapshot (Controller.state w) /\
  Controller.page w' = Controller.page w.
Proof.
  intros He. destruct e; try discriminate He; simpl;
    unfold Controller.toggleAccount, Controller.toggleAutoRefresh,
      Controller.changeRefreshInterval; simpl;
    repeat match goal with
           | |- context [bool_decide ?P] => destruct (bool_decide P); simpl
           | |- context [if ?b then _ else _] => destruct b; simpl
           end;
    repeat split.
Qed.

Lemma view_events_never_fetch_witness :
  is_view_event (Controller.SearchAccounts "alice") = true /\
  Controller.fetchPairs (Controller.step booted (Controller.SearchAccounts "alice")) =
  Controller.fetchPairs booted.
Proof.
  split; [reflexivity |].
  exact (proj1 (view_events_never_fetch booted (Controller.SearchAccounts "alice") eq_refl)).
Defined.

Lemma toggleAccount_expanded (w : Controller.World) (email : string) :
  let E := Controller.expandedAccounts (Controller.state w) in
  Controller.toggleAccount email w =
  Controller.with_state
    (Controller.set_expandedAccounts
       (if bool_decide (email ∈ E) then E ∖ {[email]} else E ∪ {[email]})) w.
Proof.
  unfold Controller.toggleAccount, Controller.with_state. simpl.
  case_bool_decide; reflexivity.
Qed.

Lemma toggle_set_twice (E : gset string) (email : string) :
  let E' := if bool_decide (email ∈ E) then E ∖ {[email]} else E ∪ {[email]} in
  (if bool_decide (email ∈ E') then E' ∖ {[email]} else E' ∪ {[email]}) = E.
Proof.
  simpl. destruct (decide (email ∈ E)) as [Hmem | Hnotmem].
  - rewrite (bool_decide_eq_true_2 _ Hmem).
    rewrite bool_decide_eq_false_2 by set_solver.
    apply leibniz_equiv. intros x.
    destruct (decide (x = email)) as [-> | Hne]; set_solver.
  - rewrite (bool_decide_eq_false_2 _ Hnotmem).
    rewrite bool_decide_eq_true_2 by set_solver. set_solver.
Qed.

(** X20. Expanding a card and collapsing it again (or the reverse) leaves
    the application as it was; one toggle changes the membership of that
    address in the expanded set and of no other. *)
Theorem toggleAccount_twice (w : Controller.World) (email other : string) :
  Controller.toggleAccount email (Controller.toggleAccount email w) = w /\
  (email ∈ Controller.expandedAccounts (Controller.state (Controller.toggleAccount email w))
   <-> email ∉ Controller.expandedAccounts (Controller.state w)) /\
  (other <> email ->
   (other ∈ Controller.expandedAccounts (Controller.state (Controller.toggleAccount email w))
    <-> other ∈ Controller.expandedAccounts (Controller.state w))).
Proof.
  split; [| split].
  - rewrite (toggleAccount_expanded (Controller.toggleAccount email w)).
    rewrite (toggleAccount_expanded w). cbv zeta.
    destruct w as [[hl al lu ar ri rt ct st fl sq ea loading] p n f t].
    unfold Controller.with_state. simpl.
    rewrite (toggle_set_twice ea email). reflexivity.
  - rewrite toggleAccount_expanded. cbv zeta. simpl.
    case_bool_decide; set_solver.
  - intros Hne. rewrite toggleAccount_expanded. cbv zeta. simpl.
    case_bool_decide; set_solver.
Qed.

Lemma toggleAccount_twice_witness :
  "b@example.com" <> "a@example.com" /\
  ("b@example.com" ∈ Controller.expandedAccounts
      (Controller.state (Controller.toggleAccount "a@example.com" booted))
   <-> "b@example.com" ∈ Controller.expandedAccounts (Controller.state booted)).
Proof.
  assert (H : "b@example.com" <> "a@example.com") by discriminate.
  split; [exact H |].
  exact (proj2 (proj2 (toggleAccount_twice booted "a@example.com" "b@example.com")) H).
Defined.

(** ** The soonest reset of a family *)

Lemma min_reset_fold (times : list Z) (o : option Z) :
  fold_left min_reset times o =
  match soonest_of times with
  | Some m => min_reset o m
  | None => o
  end.
Proof.
  unfold soonest_of. revert o.
  induction times as [| t times IH] using rev_ind; intros o; [reflexivity |].
  rewrite !fold_left_app. simpl. rewrite (IH o).
  destruct (fold_left min_reset times None) as [m |]; [| reflexivity].
  unfold min_reset. destruct o as [s |]; f_equal; lia.
Qed.

Lemma soonest_of_None (times : list Z) : soonest_of times = None -> times = [].
Proof.
  unfold soonest_of. destruct times as [| t times] using rev_ind; [reflexivity |].
  rewrite fold_left_app. discriminate.
Qed.

Lemma soonest_of_nonzero (times : list Z) :
  Forall (fun t => t <> 0) times -> unset_or_nonzero (soonest_of times).
Proof.
  unfold soonest_of. induction times as [| t times IH] using rev_ind; intros H;
    [exact I |].
  apply Forall_app in H as (Htimes & Ht). apply List.Forall_cons_iff in Ht as (Ht & _).
  rewrite fold_left_app. simpl. specialize (IH Htimes).
  destruct (fold_left min_reset times None) as [m |]; simpl in *; lia.
Qed.

Lemma slot_track_soonest o fraction rt :
  unset_or_nonzero (slot_soonest o) -> unset_or_nonzero rt ->
  Render.soonestReset (slot_track o fraction rt) =
  match rt with
  | Some t => min_reset (slot_soonest o) t
  | None => slot_soonest o
  end.
Proof.
  unfold slot_track, slot_soonest, min_reset, Render.truthy.
  destruct o as [[s c [x |]] |], rt as [t |]; simpl; intros Hx Ht; try reflexivity.
  destruct (Z.eqb_spec x 0); [contradiction |]. simpl.
  destruct (Z.ltb_spec t x); simpl; f_equal; lia.
Qed.

Section FamilyResets.
Variable family : Utils.Family.
Hypothesis recognised : family <> Utils.unknown.

Lemma slot_fold_soonest entries :
  Forall (fun t => t <> 0) (resets_in family entries) ->
  forall o, unset_or_nonzero (slot_soonest o) ->
    slot_soonest (slot_fold family o entries) =
    fold_left min_reset (resets_in family entries) (slot_soonest o).
Proof.
  unfold slot_fold, resets_in.
  induction entries as [| [modelId q] entries IH]; intros Hall o Ho; [reflexivity |].
  simpl in *. destruct (family_eqb (Utils.getModelFamily modelId) family).
  - apply Forall_app in Hall as (Hq & Hall).
    assert (Hrt : unset_or_nonzero (resetTime q)).
    { destruct (resetTime q); [| exact I].
      apply List.Forall_cons_iff in Hq as (Hq & _). exact Hq. }
    pose proof (slot_track_soonest o (null_as_zero q) (resetTime q) Ho Hrt) as Hstep.
    rewrite fold_left_app. rewrite IH; [| exact Hall |].
    + simpl slot_soonest. rewrite Hstep.
      destruct (resetTime q); reflexivity.
    + simpl slot_soonest. rewrite Hstep.
      destruct (resetTime q) as [t |]; [| exact Ho].
      simpl in Hrt. unfold min_reset. destruct (slot_soonest o); simpl in *; lia.
  - simpl in Hall. apply IH; assumption.
Qed.

Lemma scanModels_slot_fold email pa0 limits :
  Dict.get email pa0 = None ->
  forall s o,
    perAccount family s = pa0 ++ slot email o ->
    perAccount family (fold_left (Render.scanModel email) limits s) =
    pa0 ++ slot email
             (slot_fold family o
                (flat_map (fun entry => match snd entry with
                                        | Some limit => [(fst entry, limit)]
                                        | None => []
                                        end) limits)).
Proof.
  intros Hfresh. unfold slot_fold.
  induction limits as [| [modelId [limit |]] limits IH]; intros s o Hs.
  - exact Hs.
  - simpl fold_left. simpl flat_map. simpl fold_left.
    pose proof (scanModel_perAccount family recognised email s modelId limit) as Hstep.
    destruct (family_eqb (Utils.getModelFamily modelId) family).
    + rewrite Hs, track_slot in Hstep by exact Hfresh. exact (IH _ _ Hstep).
    + rewrite Hs in Hstep. exact (IH _ _ Hstep).
  - simpl fold_left. simpl flat_map. apply IH. exact Hs.
Qed.

Lemma scanAccount_slot_of s acc :
  Dict.get (Render.email acc) (perAccount family s) = None ->
  perAccount family (Render.scanAccount s acc) =
  perAccount family s ++ slot (Render.email acc) (slot_of family acc).
Proof.
  intros Hfresh. unfold slot_of, Render.scanAccount, quota_entries.
  destruct (Render.unusable acc); [simpl; rewrite app_nil_r; reflexivity |].
  destruct (Render.limits acc) as [limits |]; [| simpl; rewrite app_nil_r; reflexivity].
  apply scanModels_slot_fold; [exact Hfresh |].
  simpl. rewrite app_nil_r. reflexivity.
Qed.

Lemma slots_keys (accounts : list Render.Account) (k : string) :
  In k (Dict.keys (flat_map (fun acc => slot (Render.email acc) (slot_of family acc))
                            accounts)) ->
  In k (map Render.email accounts).
Proof.
  unfold Dict.keys. induction accounts as [| acc accounts IH]; simpl; [tauto |].
  rewrite map_app, in_app_iff. intros [H | H]; [left | right; exact (IH H)].
  destruct (slot_of family acc); simpl in H; [tauto | contradiction].
Qed.

Lemma scan_slots (accounts : list Render.Account) :
  NoDup (map Render.email accounts) ->
  perAccount family (Render.scan accounts) =
  flat_map (fun acc => slot (Render.email acc) (slot_of family acc)) accounts.
Proof.
  induction accounts as [| acc accounts IH] using rev_ind; intros Hnodup.
  - destruct family; reflexivity.
  - rewrite map_app in Hnodup. simpl in Hnodup.
    apply NoDup_app in Hnodup as (Hnodup & Hnew & _).
    specialize (IH Hnodup). unfold Render.scan in *.
    rewrite fold_left_app, flat_map_app. simpl fold_left. simpl flat_map.
    rewrite app_nil_r, <- IH. apply scanAccount_slot_of.
    apply get_None_not_key. rewrite IH. intros Hin. apply slots_keys in Hin.
    apply (Hnew (Render.email acc)); [apply list_elem_of_In; exact Hin | left].
Qed.

Lemma familyStep_fold_soonest pa l :
  (forall kv, In kv l -> Dict.get (fst kv) pa = Some (snd kv)) ->
  forall total soonest,
    snd (fold_left (Render.familyStep pa) (Dict.keys l) (total, soonest)) =
    fold_left across (map snd l) soonest.
Proof.
  unfold Dict.keys. induction l as [| kv l IH]; intros Hget total soonest;
    [reflexivity |].
  simpl map. simpl fold_left.
  rewrite (Hget kv) by (left; reflexivity).
  rewrite IH by (intros kv' Hin; apply Hget; right; exact Hin).
  reflexivity.
Qed.

Lemma across_slots (accounts : list Render.Account) :
  Forall (fun acc => Forall (fun t => t <> 0) (family_resets family acc)) accounts ->
  forall soonest, unset_or_nonzero soonest ->
    fold_left across
      (map snd (flat_map (fun acc => slot (Render.email acc) (slot_of family acc))
                         accounts))
      soonest =
    fold_left min_reset (flat_map (family_resets family) accounts) soonest.
Proof.
  induction 1 as [| acc accounts Hacc _ IH]; intros soonest Hs; [reflexivity |].
  simpl flat_map. rewrite map_app, !fold_left_app.
  assert (Hslot : slot_soonest (slot_of family acc) =
                  soonest_of (family_resets family acc)).
  { unfold slot_of, family_resets in *. destruct (Render.unusable acc); [reflexivity |].
    rewrite slot_fold_soonest; [reflexivity | exact Hacc | exact I]. }
  pose proof (soonest_of_nonzero _ Hacc) as Hnz.
  assert (Hstep : fold_left across (map snd (slot (Render.email acc) (slot_of family acc)))
                    soonest =
                  fold_left min_reset (family_resets family acc) soonest).
  { rewrite min_reset_fold, <- Hslot. rewrite <- Hslot in Hnz.
    destruct (slot_of family acc) as [a |]; [| reflexivity].
    simpl in *. unfold across, Render.truthy, min_reset.
    destruct (Render.soonestReset a) as [x |]; [| reflexivity].
    simpl in Hnz. destruct (Z.eqb_spec x 0); [contradiction |]. simpl.
    destruct soonest as [s |]; [| reflexivity].
    simpl in Hs. destruct (Z.eqb_spec s 0); [contradiction |]. simpl.
    destruct (Z.ltb_spec x s); f_equal; lia. }
  rewrite Hstep. apply IH.
  rewrite min_reset_fold. destruct (soonest_of (family_resets family acc)) as [m |];
    [| exact Hs].
  simpl in Hnz. unfold min_reset. destruct soonest; simpl in *; lia.
Qed.

Lemma scan_soonest (accounts : list Render.Account) :
  NoDup (map Render.email accounts) ->
  Forall (fun acc => Forall (fun t => t <> 0) (family_resets family acc)) accounts ->
  snd (Render.familyAverage (perAccount family (Render.scan accounts))) =
  soonest_of (flat_map (family_resets family) accounts).
Proof.
  intros Hnodup Hnz. unfold Render.familyAverage.
  set (pa := perAccount family (Render.scan accounts)).
  assert (Hkeys : NoDup (Dict.keys pa)).
  { destruct (scan_gauge family recognised accounts Hnodup) as (_ & Hk).
    subst pa. rewrite Hk. apply NoDup_map_filter. exact Hnodup. }
  pose proof (familyStep_fold_soonest pa pa
                (fun kv Hin => get_In_NoDup pa (fst kv) (snd kv) Hkeys
                                 ltac:(destruct kv; exact Hin)) 0%Q None) as Hfold.
  assert (Hpa : pa = flat_map (fun acc => slot (Render.email acc) (slot_of family acc))
                              accounts) by (apply scan_slots; exact Hnodup).
  destruct (0 <? length (Dict.keys pa))%nat eqn:Hlen.
  - destruct (fold_left (Render.familyStep pa) (Dict.keys pa) (0%Q, None))
      as [total soonest].
    simpl in *. rewrite Hfold, Hpa. apply across_slots; [exact Hnz | exact I].
  - simpl. apply Nat.ltb_ge in Hlen. unfold Dict.keys in Hlen.
    rewrite length_map in Hlen. destruct pa as [| kv pa']; [| simpl in Hlen; lia].
    symmetry in Hpa. unfold soonest_of.
    rewrite <- (across_slots accounts Hnz None I), Hpa. reflexivity.
Qed.

End FamilyResets.

(** X21. In a snapshot whose accounts have distinct e-mail addresses and
    whose reset times are not the epoch itself, the soonest reset of a family
    is the smallest reset time set on any of the family's models in the
    accounts that are 'ok' or 'rate-limited', whatever their fractions; it is
    unset when no such model has a reset time. *)
Theorem family_soonest_reset_is_minimum (now : Z) (accounts : list Render.Account) :
  NoDup (map Render.email accounts) ->
  Forall (fun acc => Forall (fun t => t <> 0) (family_resets Utils.claude acc)) accounts ->
  Forall (fun acc => Forall (fun t => t <> 0) (family_resets Utils.gemini acc)) accounts ->
  let g := Render.aggregates now accounts in
  Render.claudeSoonestReset g = soonest_of (flat_map (family_resets Utils.claude) accounts) /\
  Render.geminiSoonestReset g = soonest_of (flat_map (family_resets Utils.gemini) accounts).
Proof.
  intros Hnodup Hc Hg g. split.
  - exact (scan_soonest Utils.claude ltac:(discriminate) accounts Hnodup Hc).
  - exact (scan_soonest Utils.gemini ltac:(discriminate) accounts Hnodup Hg).
Qed.

Lemma family_soonest_reset_is_minimum_witness :
  let accounts :=
    [ {| Render.email := "a@example.com"; Render.status := "ok";
         Render.limits := Some
           [("claude-sonnet", Some {| remainingFraction := Some (1 # 2)%Q;
                                      resetTime := Some 7000 |});
            ("claude-opus", Some {| remainingFraction := None;
                                    resetTime := Some 5000 |})] |};
      {| Render.email := "b@example.com"; Render.status := "rate-limited";
         Render.limits := Some
           [("claude-sonnet", Some {| remainingFraction := Some 0%Q;
                                      resetTime := Some 6000 |})] |} ] in
  NoDup (map Render.email accounts) /\
  Render.claudeSoonestReset (Render.aggregates 1000 accounts) = Some 5000.
Proof.
  intros accounts.
  assert (H : NoDup (map Render.email accounts)).
  { simpl. apply NoDup_cons. split.
    - intros Hin. apply list_elem_of_In in Hin. simpl in Hin.
      destruct Hin as [Hin | []]. discriminate Hin.
    - apply NoDup_cons. split; [apply not_elem_of_nil | constructor]. }
  assert (C : Forall (fun acc => Forall (fun t => t <> 0)
                                   (family_resets Utils.claude acc)) accounts)
    by (repeat constructor; discriminate).
  assert (G : Forall (fun acc => Forall (fun t => t <> 0)
                                   (family_resets Utils.gemini acc)) accounts)
    by (repeat constructor; discriminate).
  split; [exact H |].
  exact (eq_trans (proj1 (family_soonest_reset_is_minimum 1000 accounts H C G)) eq_refl).
Defined.

(** ** The browser's intervals *)

Lemma timer_fields_kept (w : Controller.World) (e : Controller.Event) :
  match e with
  | Controller.ToggleAutoRefresh _ | Controller.ChangeRefreshInterval _ => True
  | _ =>
      Controller.refreshTimer (Controller.state (Controller.step w e)) =
        Controller.refreshTimer (Controller.state w) /\
      Controller.countdownTimer (Controller.state (Controller.step w e)) =
        Controller.countdownTimer (Controller.state w)
  end.
Proof. destruct e; try exact I; step_simpl; split; congruence. Qed.

Lemma intervals_step (w : Controller.World) (live : gset Z) (e : Controller.Event) :
  timers_agree w -> live = Intervals.handles w ->
  Intervals.step w live e = Intervals.handles (Controller.step w e).
Proof.
  intros (_ & c & Hc & Hle & Hr) ->.
  pose proof (timer_fields_kept w e) as Hkept.
  unfold Intervals.handles, Intervals.step, Intervals.start, Intervals.stop.
  destruct e as [| | | t h l hf rt | f | q | email | checked | ms];
    try (destruct Hkept as (-> & ->); reflexivity).
  - unfold Controller.step, Controller.toggleAutoRefresh. simpl. rewrite Hc.
    destruct checked; simpl; rewrite ?Hc;
      destruct (Controller.refreshTimer (Controller.state w)) as [r |] eqn:E;
      simpl; try (destruct (Hr r eq_refl)); set_solver by lia.
  - unfold Controller.step, Controller.changeRefreshInterval. simpl. rewrite Hc.
    destruct (Controller.autoRefresh (Controller.state w)); simpl; rewrite ?Hc;
      destruct (Controller.refreshTimer (Controller.state w)) as [r |] eqn:E;
      simpl; try (destruct (Hr r eq_refl)); set_solver by lia.
Qed.

Lemma intervals_run (events : list Controller.Event) :
  fst (Intervals.run events (Intervals.init Controller.world0)) =
    Controller.run events booted /\
  snd (Intervals.run events (Intervals.init Controller.world0)) =
    Intervals.handles (Controller.run events booted).
Proof.
  unfold Intervals.run, Controller.run.
  assert (G : forall (wl : Controller.World * gset Z) w,
            fst wl = w -> timers_agree w -> snd wl = Intervals.handles w ->
            fst (fold_left (fun wl e => (Controller.step (fst wl) e,
                                          Intervals.step (fst wl) (snd wl) e))
                           events wl) = fold_left Controller.step events w /\
            snd (fold_left (fun wl e => (Controller.step (fst wl) e,
                                          Intervals.step (fst wl) (snd wl) e))
                           events wl) =
              Intervals.handles (fold_left Controller.step events w)).
  { induction events as [| e events IH]; intros [w0 live] w Hw Hagree Hlive;
      simpl in *; subst w0; [split; [reflexivity | exact Hlive] |].
    apply IH; [reflexivity | apply step_timers_agree; exact Hagree |].
    simpl. apply intervals_step; assumption. }
  apply G; [reflexivity | exact booted_timers_agree |].
  vm_compute. reflexivity.
Qed.

(** X22. At every moment the intervals that are armed in the browser are
    exactly the ones the state holds a handle to: the countdown interval and,
    when auto-refresh is on, one auto-refresh interval. Toggling or
    rescheduling auto-refresh never leaves a second refresh interval
    running. *)
Theorem no_interval_is_leaked (events : list Controller.Event) :
  let wl := Intervals.run events (Intervals.init Controller.world0) in
  fst wl = Controller.run events booted /\
  snd wl = Intervals.handles (fst wl) /\
  exists c, Controller.countdownTimer (Controller.state (fst wl)) = Some c /\
    snd wl = match Controller.refreshTimer (Controller.state (fst wl)) with
             | Some r => {[c; r]}
             | None => {[c]}
             end.
Proof.
  intros wl. destruct (intervals_run events) as (Hw & Hlive). fold wl in Hw, Hlive.
  split; [exact Hw |]. rewrite Hw. split; [exact Hlive |].
  pose proof (reachable_ind timers_agree booted_timers_agree step_timers_agree events)
    as (_ & c & Hc & _).
  exists c. split; [exact Hc |]. rewrite Hlive. unfold Intervals.handles. rewrite Hc.
  destruct (Controller.refreshTimer _); set_solver.
Qed.

(** ** The search and the matrix *)

(** X23. The search keeps the accounts in their order and adds none; an
    empty query shows them all; and the cards and the rows of the matrix,
    which search two lists of accounts, show the same addresses whenever the
    two lists hold the same addresses. *)
Theorem searchFilter_consistent {A B : Type} (toLowerCase : string -> string)
    (emailA : A -> string) (emailB : B -> string) (searchQuery : string)
    (cards : list A) (rows : list B) :
  sublist (Render.searchFilter toLowerCase emailA searchQuery cards) cards /\
  Render.searchFilter toLowerCase emailA "" cards = cards /\
  (map emailA cards = map emailB rows ->
   map emailA (Render.searchFilter toLowerCase emailA searchQuery cards) =
   map emailB (Render.searchFilter toLowerCase emailB searchQuery rows)).
Proof.
  unfold Render.searchFilter. split; [| split].
  - destruct (String.eqb searchQuery ""); [reflexivity |].
    induction cards as [| c cards IH]; simpl; [constructor |].
    destruct (Utils.includes _ _); [apply sublist_skip | apply sublist_cons]; exact IH.
  - reflexivity.
  - destruct (String.eqb searchQuery ""); [tauto |].
    revert rows. induction cards as [| c cards IH]; intros [| r rows] H;
      try discriminate H; [reflexivity |].
    simpl in H. injection H as Hc Hrest. simpl. rewrite Hc.
    destruct (Utils.includes _ (toLowerCase (emailB r))); simpl;
      rewrite ?Hc, (IH rows Hrest); reflexivity.
Qed.

Lemma searchFilter_consistent_witness :
  let cards := [("a@example.com", 1); ("Bob@example.com", 2)] in
  let rows := ["a@example.com"; "Bob@example.com"] in
  map fst cards = map id rows /\
  map fst (Render.searchFilter id fst "Bob" cards) =
  map id (Render.searchFilter id id "Bob" rows).
Proof.
  intros cards rows.
  assert (H : map fst cards = map id rows) by reflexivity.
  split; [exact H |].
  exact (proj2 (proj2 (searchFilter_consistent id fst id "Bob" cards rows)) H).
Defined.

(** X24. A matrix cell holds a countdown only when it reads '0%', and the
    countdown is then a duration, never 'now'; a cell that reads 'N/A', '-'
    or a bracketed status holds none. *)
Theorem matrixCell_countdown_only_at_zero
    (now : Z) (acc : Render.Account) (modelId : string) (countdown : string) :
  Render.resetSpan (Render.matrixCell now acc modelId) = Some countdown ->
  Render.text (Render.matrixCell now acc modelId) = "0%" /\
  countdown <> "now" /\
  Render.unusable acc = false.
Proof.
  unfold Render.matrixCell.
  destruct (Render.unusable acc); [discriminate |].
  destruct (Render.limits acc) as [limits |]; [| discriminate].
  destruct (Dict.get modelId limits) as [[limit |] |]; try discriminate.
  destruct (remainingFraction limit) as [f |]; [| discriminate].
  simpl. destruct (resetTime limit) as [t |]; [| discriminate].
  destruct (Z.gtb_spec (t - now) 0) as [Hpos | Hle]; [| discriminate].
  destruct (Z.eqb_spec (Utils.Math_round (f * 100)) 0) as [-> | Hne]; [| discriminate].
  simpl. intros H. injection H as <-. split; [reflexivity |]. split; [| reflexivity].
  unfold Utils.formatDuration.
  destruct (Z.leb_spec (t - now) 0); [lia |].
  repeat match goal with
         | |- context [if ?b then _ else _] => destruct b
         end;
    rewrite <- ?append_assoc; apply append_unit_not_now;
    (discriminate || reflexivity).
Qed.

Lemma matrixCell_countdown_only_at_zero_witness :
  let acc :=
    {| Render.email := "a@example.com"; Render.status := "rate-limited";
       Render.limits := Some
         [("claude-sonnet", Some {| remainingFraction := Some 0%Q;
                                    resetTime := Some 91000 |})] |} in
  Render.resetSpan (Render.matrixCell 1000 acc "claude-sonnet") = Some "1m 30s" /\
  Render.text (Render.matrixCell 1000 acc "claude-sonnet") = "0%".
Proof.
  intros acc.
  assert (H : Render.resetSpan (Render.matrixCell 1000 acc "claude-sonnet") =
              Some "1m 30s") by (vm_compute; reflexivity).
  split; [exact H |].
  exact (proj1 (matrixCell_countdown_only_at_zero 1000 acc "claude-sonnet" "1m 30s" H)).
Defined.

Lemma round_of_zero (f : Q) : (f == 0)%Q -> Utils.Math_round (f * 100) = 0.
Proof.
  intros H. unfold Utils.Math_round.
  assert (E : (f * 100 + (1 # 2) == 1 # 2)%Q) by (rewrite H; reflexivity).
  rewrite (Qfloor_comp _ _ E). reflexivity.
Qed.

(** X25. The matrix and the next-reset panel agree on an exhausted quota: in
    an account that is 'ok' or 'rate-limited', a model whose fraction is
    exactly 0 and whose reset lies ahead gets a cell that reads '0%' at the
    'exhausted' level with the countdown to that reset, and the same quota
    is among the candidates for the next global reset. *)
Theorem matrixCell_exhausted_matches_panel
    (now : Z) (acc : Render.Account) (limits : list (string * option QuotaInfo))
    (modelId : string) (limit : QuotaInfo) (f : Q) (t : Z) :
  Render.unusable acc = false ->
  Render.limits acc = Some limits ->
  Dict.get modelId limits = Some (Some limit) ->
  remainingFraction limit = Some f -> (f == 0)%Q ->
  resetTime limit = Some t -> now < t ->
  Render.matrixCell now acc modelId =
    {| Render.className := "quota-cell exhausted";
       Render.text := "0%";
       Render.resetSpan := Some (Utils.formatDuration (t - now)) |} /\
  In {| Render.time := t; Render.model := modelId |} (candidates now [acc]).
Proof.
  intros Husable Hlimits Hget Hf Hzero Ht Hnow. split.
  - unfold Render.matrixCell. rewrite Husable, Hlimits, Hget, Hf, Ht.
    rewrite (round_of_zero f Hzero).
    replace (t - now >? 0) with true by (symmetry; apply Z.gtb_lt; lia).
    unfold Utils.getQuotaLevel.
    assert (H75 : Qle_bool (75 # 100) f = false).
    { destruct (Qle_bool (75 # 100) f) eqn:E; [| reflexivity].
      apply Qle_bool_iff in E. rewrite Hzero in E. clear -E. lra. }
    assert (H25 : Qle_bool (25 # 100) f = false).
    { destruct (Qle_bool (25 # 100) f) eqn:E; [| reflexivity].
      apply Qle_bool_iff in E. rewrite Hzero in E. clear -E. lra. }
    assert (H0 : Qle_bool f 0 = true)
      by (apply Qle_bool_iff; rewrite Hzero; apply Qle_refl).
    rewrite H75, H25, H0. reflexivity.
  - unfold candidates. simpl. rewrite Husable, app_nil_r.
    unfold quota_entries. rewrite Hlimits.
    apply in_flat_map. exists (modelId, limit). split.
    + apply in_flat_map. exists (modelId, Some limit). split; [| left; reflexivity].
      clear -Hget. induction limits as [| [k v] limits IH]; simpl in *; [discriminate |].
      destruct (String.eqb_spec modelId k) as [-> | Hne].
      * injection Hget as ->. left. reflexivity.
      * right. exact (IH Hget).
    + unfold candidate. simpl. rewrite Ht, Hf.
      replace (t >? now) with true by (symmetry; apply Z.gtb_lt; lia).
      replace (Qeq_bool f 0) with true by (symmetry; apply Qeq_bool_iff; exact Hzero).
      simpl. left. reflexivity.
Qed.

Lemma matrixCell_exhausted_matches_panel_witness :
  let limit := {| remainingFraction := Some 0%Q; resetTime := Some 91000 |} in
  let acc :=
    {| Render.email := "a@example.com"; Render.status := "rate-limited";
       Render.limits := Some [("claude-sonnet", Some limit)] |} in
  Render.unusable acc = false /\ 1000 < 91000 /\
  Render.matrixCell 1000 acc "claude-sonnet" =
    {| Render.className := "quota-cell exhausted";
       Render.text := "0%";
       Render.resetSpan := Some (Utils.formatDuration (91000 - 1000)) |}.
Proof.
  intros limit acc.
  assert (Hu : Render.unusable acc = false) by reflexivity.
  assert (Hn : 1000 < 91000) by lia.
  split; [exact Hu |]. split; [exact Hn |].
  exact (proj1 (matrixCell_exhausted_matches_panel 1000 acc
                  [("claude-sonnet", Some limit)] "claude-sonnet" limit 0%Q 91000
                  Hu eq_refl eq_refl eq_refl (Qeq_refl 0) eq_refl Hn)).
Defined.
